(** * Authorization matrix: permission resolution, mutation and gating

    A shallow embedding of the permission logic of the authorization matrix
    console:

    - [src/components/AuthorizationMatrixView.tsx]: [getPermission], the
      cell rendering, the toggle handler, [filteredActions], [exportToCSV];
    - [src/components/SupabaseAuthorizationMatrix.tsx]: [loadData],
      [updatePermission], [isAdmin], [canEdit];
    - the SQL migrations: the [permissions] table with its constraints and
      the functions [get_user_role], [is_admin], [can_edit].

    JavaScript strings are modelled as [string], a sequence of bytes
    (text outside ASCII in UTF-8), and compared and searched as such;
    [String.prototype.toLowerCase], which the platform supplies, is an
    argument of the filters that call it.  Arrays are modelled as [list],
    an optional or nullable property as [option], the numeric
    [limit_value] (an INTEGER column) as [Z].  The React state of the
    container component and the database tables it talks to are two
    separate parts of one explicit state; everything the database decides
    on its own (connectivity, generated row ids) is an input of the step.
    One call of [updatePermission] is one step: the console is used by one
    session and nothing runs between its awaits. *)

From Stdlib Require Import String Ascii List ZArith Bool Lia DecimalString.
Import ListNotations.

Local Open Scope string_scope.
Local Open Scope list_scope.

(** ** Data model *)

(** [status: 'granted' | 'denied' | 'conditional'], the SQL enum
    [permission_status]. *)
Inductive Status : Type :=
| granted
| denied
| conditional.

(** The string a status value is in JavaScript. *)
Definition status_string (s : Status) : string :=
  match s with
  | granted => "granted"
  | denied => "denied"
  | conditional => "conditional"
  end.

Module Role.
(** [interface DatabaseRole]. *)
Record t : Type := mk {
  id : string;
  name : string;
  description : string;
  color : string;
  is_system_role : bool
}.
End Role.

Module Action.
(** [interface DatabaseAction]; [description] is a nullable column that
    the view reads through [?.]. *)
Record t : Type := mk {
  id : string;
  name : string;
  description : option string;
  category : string
}.
End Action.

Module Permission.
(** [interface DatabasePermission]. *)
Record t : Type := mk {
  id : string;
  role_id : string;
  action_id : string;
  status : Status;
  limit_value : option Z;
  conditions : option string
}.

(** The row after [update({ status })]: only [status] is patched. *)
Definition with_status (p : t) (s : Status) : t :=
  mk (id p) (role_id p) (action_id p) s (limit_value p) (conditions p).
End Permission.

Module Profile.
(** [interface DatabaseProfile]. *)
Record t : Type := mk {
  id : string;
  user_id : string;
  full_name : option string;
  email : option string;
  role_id : option string
}.
End Profile.

(** ** JavaScript helpers *)

(** [x || d] on a nullable string: the empty string is falsy. *)
Definition or_string (x : option string) (d : string) : string :=
  match x with
  | Some s => if String.eqb s "" then d else s
  | None => d
  end.

(** A cell of the [csvData] table: a string or a number. *)
Inductive Field : Type :=
| FStr (s : string)
| FNum (n : Z).

(** [x || d] on a nullable number: [0] is falsy. *)
Definition or_number (x : option Z) (d : Field) : Field :=
  match x with
  | Some n => if Z.eqb n 0 then d else FNum n
  | None => d
  end.

(** [`${field}`]: strings as they are, integers in decimal. *)
Definition field_string (f : Field) : string :=
  match f with
  | FStr s => s
  | FNum n => NilZero.string_of_int (Z.to_int n)
  end.

Definition dquote : string := String "034"%char EmptyString.

(** [`"${field}"`]. *)
Definition quoted (f : Field) : string :=
  (dquote ++ field_string f ++ dquote)%string.

(** [String.prototype.toLowerCase] belongs to the platform, not to this
    code: it folds the letters of every script, not only A-Z, and what
    it makes of a letter can depend on the letters around it.  It is taken
    as given: any function on strings that sends the empty string to the
    empty string. *)
Record CaseMap : Type := mkCaseMap {
  toLowerCase : string -> string;
  toLowerCase_empty : toLowerCase "" = ""
}.

(** The fold of A-Z, letter by letter: what [toLowerCase] does on ASCII
    text. *)
Definition lower_char (c : ascii) : ascii :=
  let n := nat_of_ascii c in
  if (65 <=? n)%nat && (n <=? 90)%nat then ascii_of_nat (n + 32) else c.

Fixpoint ascii_toLowerCase (s : string) : string :=
  match s with
  | EmptyString => EmptyString
  | String c s' => String (lower_char c) (ascii_toLowerCase s')
  end.

Definition ascii_case : CaseMap := mkCaseMap ascii_toLowerCase eq_refl.

(** [s.includes(t)]: [t] occurs in [s] as a contiguous substring. *)
Fixpoint includes (s t : string) : bool :=
  prefix t s ||
  match s with
  | EmptyString => false
  | String _ s' => includes s' t
  end.

(** ** Permission resolver *)

(** [permissions.find(p => p.role_id === roleId && p.action_id === actionId)]. *)
Definition matches (roleId actionId : string) (p : Permission.t) : bool :=
  String.eqb (Permission.role_id p) roleId &&
  String.eqb (Permission.action_id p) actionId.

Definition getPermission (permissions : list Permission.t)
  (roleId actionId : string) : option Permission.t :=
  find (matches roleId actionId) permissions.

(** What a cell of the matrix shows for a pair. *)
Record Resolved : Type := mkResolved {
  res_status : Status;
  res_limit_value : option Z;
  res_conditions : option string
}.

(** [permission?.status || 'denied']: all three status strings are truthy. *)
Definition currentStatus (permission : option Permission.t) : Status :=
  match permission with
  | Some p => Permission.status p
  | None => denied
  end.

(** The cell of [(role, action)]: [getPermission], then
    [permission?.status || 'denied'], [permission?.limit_value] and
    [permission?.conditions]. *)
Definition resolve (permissions : list Permission.t)
  (roleId actionId : string) : Resolved :=
  let permission := getPermission permissions roleId actionId in
  mkResolved
    (currentStatus permission)
    (match permission with Some p => Permission.limit_value p | None => None end)
    (match permission with Some p => Permission.conditions p | None => None end).

(** The toggle handler's
    [currentStatus === 'denied' ? 'granted' :
     currentStatus === 'granted' ? 'conditional' : 'denied']. *)
Definition nextStatus (currentStatus : Status) : Status :=
  match currentStatus with
  | denied => granted
  | granted => conditional
  | conditional => denied
  end.

(** ** Access policy gate *)

(** [const isAdmin = userRole === 'Admin']. *)
Definition isAdmin (userRole : string) : bool :=
  String.eqb userRole "Admin".

(** [const canEdit = userRole === 'Edit & View' || userRole === 'Admin']. *)
Definition canEdit (userRole : string) : bool :=
  String.eqb userRole "Edit & View" || String.eqb userRole "Admin".

(** [setUserRole(userRoleRes.data || '')]: the role name the component
    holds for what [get_user_role] answered, [None] being SQL NULL. *)
Definition userRole_of (data : option string) : string :=
  or_string data "".

(** The SQL twins, three-valued: [get_user_role(...) = 'Admin'] and
    [get_user_role(...) IN ('Edit & View', 'Admin')] are NULL on a NULL
    role name. *)
Definition sql_is_admin (role_name : option string) : option bool :=
  match role_name with
  | Some n => Some (String.eqb n "Admin")
  | None => None
  end.

Definition sql_can_edit (role_name : option string) : option bool :=
  match role_name with
  | Some n => Some (String.eqb n "Edit & View" || String.eqb n "Admin")
  | None => None
  end.

(** A row-level-security policy [USING (e)] lets a row through only when
    [e] is true; NULL does not. *)
Definition policy_using (e : option bool) : bool :=
  match e with
  | Some true => true
  | _ => false
  end.

(** The operations of the console and which of them a role name opens:
    viewing is open to every signed-in user, editing the matrix is behind
    [canEdit], the admin panel behind [isAdmin]. *)
Inductive Operation : Type :=
| OpView
| OpEdit
| OpAdminister.

Definition permitted (userRole : string) (op : Operation) : bool :=
  match op with
  | OpView => true
  | OpEdit => canEdit userRole
  | OpAdminister => isAdmin userRole
  end.

(** The capability level of the specification, read off the two flags. *)
Inductive Capability : Type :=
| ViewOnly
| CanEdit
| Admin.

Definition capability_of (data : option string) : Capability :=
  let userRole := userRole_of data in
  if isAdmin userRole then Admin
  else if canEdit userRole then CanEdit
  else ViewOnly.

(** ** Matrix view: [AuthorizationMatrixView] *)

Module View.
(** The props of the component and its two filter states. *)
Record t : Type := mk {
  roles : list Role.t;
  actions : list Action.t;
  permissions : list Permission.t;
  userRole : string;
  selectedCategory : string;
  searchTerm : string
}.

(** [selectedCategory === 'all' || action.category === selectedCategory]. *)
Definition matchesCategory (v : t) (action : Action.t) : bool :=
  String.eqb (selectedCategory v) "all" ||
  String.eqb (Action.category action) (selectedCategory v).

(** [action.name.toLowerCase().includes(searchTerm.toLowerCase()) ||
     action.description?.toLowerCase().includes(searchTerm.toLowerCase())]:
    a null description short-circuits to [undefined], which is falsy. *)
Definition matchesSearch (L : CaseMap) (v : t) (action : Action.t) : bool :=
  includes (toLowerCase L (Action.name action)) (toLowerCase L (searchTerm v)) ||
  match Action.description action with
  | Some d => includes (toLowerCase L d) (toLowerCase L (searchTerm v))
  | None => false
  end.

(** [actions.filter(action => matchesCategory && matchesSearch)]. *)
Definition filteredActions (L : CaseMap) (v : t) : list Action.t :=
  filter (fun action => matchesCategory v action && matchesSearch L v action)
         (actions v).


(** The toggle button is only rendered when [canEdit]. *)
Definition hasToggle (v : t) : bool := canEdit (userRole v).

(** The arguments the [onClick] handler of a cell passes to
    [onPermissionUpdate]. *)
Definition onClick (v : t) (role : Role.t) (action : Action.t)
  : string * string * Status :=
  let permission :=
    getPermission (permissions v) (Role.id role) (Action.id action) in
  (Role.id role, Action.id action, nextStatus (currentStatus permission)).

(** [csvData.push(['Role', 'Action', 'Status', 'Limit', 'Conditions',
    'Category'])]. *)
Definition header : list Field :=
  [FStr "Role"; FStr "Action"; FStr "Status"; FStr "Limit";
   FStr "Conditions"; FStr "Category"].

(** The row pushed for one [(role, action)]. *)
Definition exportRow (v : t) (role : Role.t) (action : Action.t)
  : list Field :=
  let permission :=
    getPermission (permissions v) (Role.id role) (Action.id action) in
  [FStr (Role.name role);
   FStr (Action.name action);
   FStr (status_string (currentStatus permission));
   or_number
     (match permission with Some p => Permission.limit_value p | None => None end)
     (FStr "");
   FStr (or_string
     (match permission with Some p => Permission.conditions p | None => None end)
     "");
   FStr (Action.category action)].

(** [roles.forEach(role => actions.forEach(action => csvData.push(...)))]. *)
Definition dataRows (v : t) : list (list Field) :=
  flat_map (fun role => map (fun action => exportRow v role action) (actions v))
           (roles v).

Definition csvData (v : t) : list (list Field) := header :: dataRows v.

Definition comma : string := ",".
Definition newline : string := String "010"%char EmptyString.

(** [csvData.map(row => row.map(field => `"${field}"`).join(',')).join('\n')]. *)
Definition csvLine (row : list Field) : string :=
  String.concat comma (map quoted row).

Definition csvContent (v : t) : string :=
  String.concat newline (map csvLine (csvData v)).
End View.

(** ** Entity store: the tables behind the query client *)

Module Store.
Record t : Type := mk {
  roles : list Role.t;
  actions : list Action.t;
  permissions : list Permission.t;
  profiles : list Profile.t
}.

Inductive error : Type :=
| Unavailable
| PrimaryKeyViolation
| ForeignKeyViolation
| UniqueViolation.

(** The [{ data, error }] answer of the query client. *)
Inductive response (A : Type) : Type :=
| Data (a : A)
| Error (e : error).
Arguments Data {A} a.
Arguments Error {A} e.

Definition set_permissions (db : t) (ps : list Permission.t) : t :=
  mk (roles db) (actions db) ps (profiles db).

Definition has_id (id : string) (ps : list Permission.t) : bool :=
  existsb (fun p => String.eqb (Permission.id p) id) ps.

Definition has_pair (roleId actionId : string) (ps : list Permission.t)
  : bool :=
  existsb (matches roleId actionId) ps.

(** What [update({ status }).eq('id', id)] does to one row. *)
Definition patch_status (id : string) (s : Status) (p : Permission.t)
  : Permission.t :=
  if String.eqb (Permission.id p) id then Permission.with_status p s else p.

(** [from('permissions').update({ status }).eq('id', id)]: every row
    whose id is [id] gets the new status, nothing else changes; no row
    with that id is not an error.  [fault] stands for a failure of the
    request that the tables do not decide. *)
Definition update_status (db : t) (fault : bool) (id : string) (s : Status)
  : response t :=
  if fault then Error Unavailable
  else Data (set_permissions db (map (patch_status id s) (permissions db))).

(** [from('permissions').insert({ role_id, action_id, status })] under
    the table's constraints: [id] is the PRIMARY KEY (generated by the
    database, here [new_id]), [role_id] and [action_id] REFERENCE
    existing rows, [UNIQUE(role_id, action_id)]; [limit_value] and
    [conditions] have no default and stay NULL. *)
Definition insert (db : t) (fault : bool) (new_id roleId actionId : string)
  (s : Status) : response t :=
  if fault then Error Unavailable
  else if has_id new_id (permissions db) then Error PrimaryKeyViolation
  else if negb (existsb (fun r => String.eqb (Role.id r) roleId) (roles db))
  then Error ForeignKeyViolation
  else if negb (existsb (fun a => String.eqb (Action.id a) actionId) (actions db))
  then Error ForeignKeyViolation
  else if has_pair roleId actionId (permissions db) then Error UniqueViolation
  else Data (set_permissions db
         (permissions db ++
          [Permission.mk new_id roleId actionId s None None])).

(** [get_user_role(user_uuid)]: the name of the role of the profile of
    that user, NULL when there is none. *)
Definition get_user_role (db : t) (user_uuid : option string)
  : option string :=
  match user_uuid with
  | None => None
  | Some u =>
    match find (fun p => String.eqb (Profile.user_id p) u) (profiles db) with
    | None => None
    | Some p =>
      match Profile.role_id p with
      | None => None
      | Some rid =>
        match find (fun r => String.eqb (Role.id r) rid) (roles db) with
        | None => None
        | Some r => Some (Role.name r)
        end
      end
    end
  end.
End Store.

(** ** Container: [SupabaseAuthorizationMatrix] *)

Record Toast : Type := mkToast {
  toast_title : string;
  toast_description : string;
  toast_destructive : bool
}.

(** What the outside decides during one [updatePermission]: whether the
    write request fails, the id the database generates for a new row,
    whether one of the four [select('*')] fails, whether the role lookup
    fails. *)
Record Env : Type := mkEnv {
  write_fault : bool;
  new_id : string;
  select_fault : bool;
  rpc_fault : bool
}.

Module App.
(** The tables, the signed-in user, the React state of the component and
    the notices shown so far (oldest first). *)
Record t : Type := mk {
  store : Store.t;
  user : option string;
  roles : list Role.t;
  actions : list Action.t;
  permissions : list Permission.t;
  profiles : list Profile.t;
  loading : bool;
  userRole : string;
  toasts : list Toast
}.

Definition set_store (st : t) (db : Store.t) : t :=
  mk db (user st) (roles st) (actions st) (permissions st) (profiles st)
     (loading st) (userRole st) (toasts st).

Definition setLoading (st : t) (b : bool) : t :=
  mk (store st) (user st) (roles st) (actions st) (permissions st)
     (profiles st) b (userRole st) (toasts st).

Definition toast (st : t) (n : Toast) : t :=
  mk (store st) (user st) (roles st) (actions st) (permissions st)
     (profiles st) (loading st) (userRole st) (toasts st ++ [n]).

(** [setRoles], [setActions], [setPermissions], [setProfiles],
    [setUserRole] in a row. *)
Definition setCatalog (st : t) (rs : list Role.t) (acts : list Action.t)
  (ps : list Permission.t) (pfs : list Profile.t) (ur : string) : t :=
  mk (store st) (user st) rs acts ps pfs (loading st) ur (toasts st).

Definition loadFailed : Toast :=
  mkToast "Error" "Failed to load authorization data." true.
Definition updateSucceeded : Toast :=
  mkToast "Success" "Permission updated successfully." false.
Definition updateFailed : Toast :=
  mkToast "Error" "Failed to update permission." true.

(** [loadData]: all requests are awaited together; an error of one of
    the four selects throws before any setter runs, an error of the role
    lookup only leaves its [data] null. *)
Definition loadData (select_fault rpc_fault : bool) (st : t) : t :=
  let st := setLoading st true in
  let st :=
    if select_fault then toast st loadFailed
    else
      let db := store st in
      let role := if rpc_fault then None else Store.get_user_role db (user st) in
      setCatalog st (Store.roles db) (Store.actions db)
                 (Store.permissions db) (Store.profiles db)
                 (userRole_of role) in
  setLoading st false.

(** The write [updatePermission] sends: an update of the row it holds
    for the pair, an insert when it holds none. *)
Definition write (env : Env) (roleId actionId : string) (status : Status)
  (st : t) : Store.response Store.t :=
  match getPermission (permissions st) roleId actionId with
  | Some existingPermission =>
      Store.update_status (store st) (write_fault env)
                          (Permission.id existingPermission) status
  | None =>
      Store.insert (store st) (write_fault env) (new_id env)
                   roleId actionId status
  end.

(** [updatePermission]: the write, then on success [loadData] and the
    success notice, on error the failure notice only. *)
Definition updatePermission (env : Env) (roleId actionId : string)
  (status : Status) (st : t) : t :=
  match write env roleId actionId status st with
  | Store.Data db =>
      let st := loadData (select_fault env) (rpc_fault env) (set_store st db) in
      toast st updateSucceeded
  | Store.Error _ => toast st updateFailed
  end.

(** The view as the container renders it. *)
Definition view (st : t) (selectedCategory searchTerm : string) : View.t :=
  View.mk (roles st) (actions st) (permissions st) (userRole st)
          selectedCategory searchTerm.

(** A click on the cell of [(role, action)]:
    [onPermissionUpdate={updatePermission}]. *)
Definition toggle (env : Env) (role : Role.t) (action : Action.t) (st : t)
  : t :=
  let '(roleId, actionId, status) := View.onClick (view st "all" "") role action in
  updatePermission env roleId actionId status st.

(** The cell as rendered: [canEdit ? <button onClick=...> : badge]; without
    the button a click does nothing. *)
Definition click (env : Env) (role : Role.t) (action : Action.t) (st : t)
  : t :=
  if View.hasToggle (view st "all" "") then toggle env role action st else st.
End App.

(** ** Invariants of the permission rows *)

(** [UNIQUE(role_id, action_id)]: no two rows for one pair. *)
Fixpoint unique_pairs (ps : list Permission.t) : bool :=
  match ps with
  | [] => true
  | p :: ps' =>
      negb (Store.has_pair (Permission.role_id p) (Permission.action_id p) ps')
      && unique_pairs ps'
  end.

(** [id ... PRIMARY KEY]: no two rows with one id. *)
Fixpoint unique_ids (ps : list Permission.t) : bool :=
  match ps with
  | [] => true
  | p :: ps' => negb (Store.has_id (Permission.id p) ps') && unique_ids ps'
  end.

(** The number of rows held for a pair. *)
Definition rows_for (roleId actionId : string) (ps : list Permission.t) : nat :=
  length (filter (matches roleId actionId) ps).

(** The catalog the component holds. *)
Definition catalog (st : App.t)
  : list Role.t * list Action.t * list Permission.t :=
  (App.roles st, App.actions st, App.permissions st).

(** The component shows what the tables hold. *)
Definition in_sync (st : App.t) : Prop :=
  App.roles st = Store.roles (App.store st) /\
  App.actions st = Store.actions (App.store st) /\
  App.permissions st = Store.permissions (App.store st) /\
  App.profiles st = Store.profiles (App.store st).

(** ** The specification's wording, for comparison *)


(** The export row as the specification words it: [role.name],
    [action.name], status or "denied", limit_value or empty, conditions or
    empty, [action.category], where "or" falls back when there is no
    value. *)
Definition claimed_row (permissions : list Permission.t) (role : Role.t)
  (action : Action.t) : list Field :=
  let permission := getPermission permissions (Role.id role) (Action.id action) in
  [FStr (Role.name role);
   FStr (Action.name action);
   FStr (match permission with
         | Some p => status_string (Permission.status p)
         | None => "denied"
         end);
   match permission with
   | Some p => match Permission.limit_value p with
               | Some n => FNum n
               | None => FStr ""
               end
   | None => FStr ""
   end;
   FStr (match permission with
         | Some p => match Permission.conditions p with
                     | Some c => c
                     | None => ""
                     end
         | None => ""
         end);
   FStr (Action.category action)].

(** The same row with the limit as the code exports it: a limit of zero
    is exported like no limit. *)
Definition exported_row (permissions : list Permission.t) (role : Role.t)
  (action : Action.t) : list Field :=
  let permission := getPermission permissions (Role.id role) (Action.id action) in
  [FStr (Role.name role);
   FStr (Action.name action);
   FStr (match permission with
         | Some p => status_string (Permission.status p)
         | None => "denied"
         end);
   match permission with
   | Some p => match Permission.limit_value p with
               | Some n => if Z.eqb n 0 then FStr "" else FNum n
               | None => FStr ""
               end
   | None => FStr ""
   end;
   FStr (match permission with
         | Some p => match Permission.conditions p with
                     | Some c => c
                     | None => ""
                     end
         | None => ""
         end);
   FStr (Action.category action)].

(** The header line of the export, every name between double quotes. *)
Definition header_line : string :=
  String.concat ","
    (map (fun n => (dquote ++ n ++ dquote)%string)
         ["Role"; "Action"; "Status"; "Limit"; "Conditions"; "Category"]).

(** ** Sample catalog, in the style of the seed data of the migrations *)

Module Sample.
Definition manager : Role.t :=
  Role.mk "role-manager" "Manager" "Department management access" "#D97706" false.
Definition employee : Role.t :=
  Role.mk "role-employee" "Employee" "Basic employee access" "#059669" false.

Definition approve : Action.t :=
  Action.mk "act-approve" "Approve Expense Reports"
            (Some "Authority to approve expense reports") "Financial".
Definition payroll : Action.t :=
  Action.mk "act-payroll" "Process Payroll"
            (Some "Access to payroll processing systems") "Financial".
Definition reports : Action.t :=
  Action.mk "act-reports" "Access Financial Reports"
            (Some "View financial reports and budget analytics") "Financial".
Definition deploy : Action.t :=
  Action.mk "act-deploy" "Deploy Code" None "System".

(** Manager may approve expense reports up to 10000. *)
Definition manager_approve : Permission.t :=
  Permission.mk "perm-1" "role-manager" "act-approve" granted (Some 10000%Z) None.
Definition manager_reports : Permission.t :=
  Permission.mk "perm-2" "role-manager" "act-reports" conditional None
                (Some "Department level only").
(** A second row of the pair of [manager_approve]. *)
Definition manager_approve_again : Permission.t :=
  Permission.mk "perm-3" "role-manager" "act-approve" denied None None.
(** Employee may approve expense reports up to a limit of zero. *)
Definition employee_approve_zero : Permission.t :=
  Permission.mk "perm-4" "role-employee" "act-approve" granted (Some 0%Z) None.

Definition roles : list Role.t := [manager; employee].
Definition actions : list Action.t := [approve; payroll; reports; deploy].
Definition permissions : list Permission.t :=
  [manager_approve; manager_reports].

Definition db : Store.t := Store.mk roles actions permissions [].

(** The container right after a successful [loadData]. *)
Definition app : App.t :=
  App.mk db (Some "user-1") roles actions permissions [] false "Edit & View" [].

(** Nothing fails; the database generates [perm-9] for a new row. *)
Definition fine : Env := mkEnv false "perm-9" false false.
(** The write request is rejected. *)
Definition rejected : Env := mkEnv true "perm-9" false false.
(** The write goes through, the reload fails. *)
Definition reload_fails : Env := mkEnv false "perm-9" true false.

Definition view (selectedCategory searchTerm : string) : View.t :=
  View.mk roles actions permissions "Edit & View" selectedCategory searchTerm.

(** One role, one action, the permission with the limit of zero. *)
Definition zero_view : View.t :=
  View.mk [employee] [approve] [employee_approve_zero] "Admin" "all" "".
End Sample.

(** ** Lower-casing Greek capitals *)

(** Text outside ASCII is held in UTF-8: a substring of well-formed text
    is found among its bytes exactly where it is found among its UTF-16
    units.  The Greek capitals [Α]..[Ω] are the bytes 206 145 .. 206 169,
    the small letters [α]..[ο] 206 177 .. 206 191 and [π]..[ω]
    207 128 .. 207 137; [ς] is 207 130 and [σ] 207 131. *)
Module Greek.








(** An action with a name in Greek capitals, "access", and the search
    for its first four letters, "towards", typed in capitals as well. *)
Definition access : Action.t := Action.mk "act-access" "ΠΡΟΣΒΑΣΗ" None "System".

Definition view : View.t :=
  View.mk Sample.roles [access] [] "Edit & View" "all" "ΠΡΟΣ".
End Greek.

(** ** More of the matrix view: categories, badges, cells *)

(** [new Set(xs)] read back in insertion order: every value once, at the
    place of its first occurrence; [seen] is what the set already holds. *)
Fixpoint set_values (seen xs : list string) : list string :=
  match xs with
  | [] => []
  | x :: xs' =>
      if existsb (String.eqb x) seen then set_values seen xs'
      else x :: set_values (x :: seen) xs'
  end.

(** [Array.from(new Set(xs))]. *)
Definition array_from_set (xs : list string) : list string :=
  set_values [] xs.

(** A [<Badge variant=...>label</Badge>]. *)
Record Badge : Type := mkBadge {
  badge_variant : string;
  badge_label : string
}.

(** A cell of the matrix: whether the badge sits in a toggle button, the
    badge, and the two optional lines under it. *)
Record Cell : Type := mkCell {
  cell_button : bool;
  cell_badge : Badge;
  cell_limit : option string;
  cell_conditions : option string
}.

Module Matrix.
(** [Array.from(new Set(actions.map(action => action.category)))]. *)
Definition categories (v : View.t) : list string :=
  array_from_set (map Action.category (View.actions v)).

(** The values of the category select: the fixed item "all", then one
    item per category. *)
Definition categoryOptions (v : View.t) : list string :=
  "all" :: categories v.

(** [getStatusBadge]. *)
Definition getStatusBadge (permission : option Permission.t) : Badge :=
  match permission with
  | None => mkBadge "secondary" "Denied"
  | Some p =>
      match Permission.status p with
      | granted => mkBadge "default" "Granted"
      | conditional => mkBadge "outline" "Conditional"
      | denied => mkBadge "destructive" "Denied"
      end
  end.

(** [{permission?.limit_value && <div>Limit: {permission.limit_value}</div>}]:
    React shows nothing for undefined and null, and shows a number, 0
    included, as its digits. *)
Definition limitLine (permission : option Permission.t) : option string :=
  match permission with
  | None => None
  | Some p =>
      match Permission.limit_value p with
      | None => None
      | Some n =>
          if Z.eqb n 0 then Some (field_string (FNum n))
          else Some ("Limit: " ++ field_string (FNum n))%string
      end
  end.

(** [{permission?.conditions && <div>{permission.conditions}</div>}]:
    React shows nothing for the empty string either. *)
Definition conditionsLine (permission : option Permission.t) : option string :=
  match permission with
  | None => None
  | Some p =>
      match Permission.conditions p with
      | None => None
      | Some c => if String.eqb c "" then None else Some c
      end
  end.

(** The [<td>] of [(role, action)]. *)
Definition cell (v : View.t) (role : Role.t) (action : Action.t) : Cell :=
  let permission :=
    getPermission (View.permissions v) (Role.id role) (Action.id action) in
  mkCell (View.hasToggle v) (getStatusBadge permission)
         (limitLine permission) (conditionsLine permission).

(** The [<tbody>]: a row per filtered action, a cell per role. *)
Definition body (L : CaseMap) (v : View.t) : list (Action.t * list Cell) :=
  map (fun action => (action, map (fun role => cell v role action) (View.roles v)))
      (View.filteredActions L v).
End Matrix.

(** ** The matrix before the split into container and view *)

Module Legacy.
(** The search test of the older component: [action.description] is read
    without [?.], so a null description throws ([None]) unless the name
    has already matched. *)
Definition matchesSearch (L : CaseMap) (v : View.t) (action : Action.t)
  : option bool :=
  if includes (toLowerCase L (Action.name action))
              (toLowerCase L (View.searchTerm v))
  then Some true
  else
    match Action.description action with
    | Some d =>
        Some (includes (toLowerCase L d) (toLowerCase L (View.searchTerm v)))
    | None => None
    end.

(** [actions.filter(...)] with a callback that may throw: the first throw
    ends the whole filter. *)
Fixpoint filter_actions (L : CaseMap) (v : View.t) (actions : list Action.t)
  : option (list Action.t) :=
  match actions with
  | [] => Some []
  | action :: rest =>
      let matchesCategory := View.matchesCategory v action in
      match matchesSearch L v action with
      | None => None
      | Some matches_search =>
          match filter_actions L v rest with
          | None => None
          | Some kept =>
              Some (if matchesCategory && matches_search
                    then action :: kept else kept)
          end
      end
  end.

Definition filteredActions (L : CaseMap) (v : View.t)
  : option (list Action.t) :=
  filter_actions L v (View.actions v).
End Legacy.

(** ** User management: [UserManagement] *)

(** What [supabase.auth.signUp] answers: an error, no error and no user,
    or the new user's id; in the last case the tables as the database
    left them after creating the account. *)
Inductive SignUp : Type :=
| SignUpError
| SignUpNoUser
| SignUpUser (user_id : string) (after : Store.t).

(** What the outside decides during one step of the user management. *)
Record UsersEnv : Type := mkUsersEnv {
  signUp : SignUp;
  profile_write_fault : bool;
  new_profile_id : string;
  profiles_select_fault : bool;
  reload_select_fault : bool;
  reload_rpc_fault : bool
}.

Module Profiles.
Definition set_profiles (db : Store.t) (pfs : list Profile.t) : Store.t :=
  Store.mk (Store.roles db) (Store.actions db) (Store.permissions db) pfs.

Definition has_role (roleId : string) (db : Store.t) : bool :=
  existsb (fun r => String.eqb (Role.id r) roleId) (Store.roles db).

(** What [update({ role_id }).eq('id', id)] does to one row. *)
Definition patch_role (id roleId : string) (p : Profile.t) : Profile.t :=
  if String.eqb (Profile.id p) id
  then Profile.mk (Profile.id p) (Profile.user_id p) (Profile.full_name p)
                  (Profile.email p) (Some roleId)
  else p.

(** [from('profiles').insert({ user_id, email, full_name, role_id })]:
    the id is generated, [role_id] REFERENCES a role. *)
Definition insert (db : Store.t) (fault : bool)
  (new_id user_id email full_name role_id : string)
  : Store.response Store.t :=
  if fault then Store.Error Store.Unavailable
  else if existsb (fun p => String.eqb (Profile.id p) new_id) (Store.profiles db)
  then Store.Error Store.PrimaryKeyViolation
  else if negb (has_role role_id db) then Store.Error Store.ForeignKeyViolation
  else Store.Data (set_profiles db
         (Store.profiles db ++
          [Profile.mk new_id user_id (Some full_name) (Some email)
                      (Some role_id)])).

(** [from('profiles').update({ role_id }).eq('id', id)]: the reference is
    checked on the rows that change, so an id no row has is not an error. *)
Definition update_role (db : Store.t) (fault : bool) (id roleId : string)
  : Store.response Store.t :=
  if fault then Store.Error Store.Unavailable
  else if existsb (fun p => String.eqb (Profile.id p) id) (Store.profiles db)
          && negb (has_role roleId db)
  then Store.Error Store.ForeignKeyViolation
  else Store.Data (set_profiles db
         (map (patch_role id roleId) (Store.profiles db))).
End Profiles.

Module Users.
(** The [newUser] form. *)
Record NewUser : Type := mkNewUser {
  email : string;
  password : string;
  fullName : string;
  roleId : string
}.

Definition emptyForm : NewUser := mkNewUser "" "" "" "".

(** The container around the panel, the panel's own [profiles] and
    [loading], and the form.  Notices go to the one notice list. *)
Record t : Type := mk {
  app : App.t;
  profiles : list Profile.t;
  loading : bool;
  newUser : NewUser
}.

Definition set_app (st : t) (a : App.t) : t :=
  mk a (profiles st) (loading st) (newUser st).

Definition toast (st : t) (n : Toast) : t :=
  set_app st (App.toast (app st) n).

Definition profilesFailed : Toast :=
  mkToast "Error" "Failed to load user profiles." true.
Definition validationError : Toast :=
  mkToast "Validation Error" "Please fill in all required fields." true.
Definition createSucceeded : Toast :=
  mkToast "Success" "User created successfully." false.
Definition createFailed : Toast :=
  mkToast "Error" "Failed to create user." true.
Definition roleUpdated : Toast :=
  mkToast "Success" "User role updated successfully." false.
Definition roleUpdateFailed : Toast :=
  mkToast "Error" "Failed to update user role." true.

(** [loadProfiles]. *)
Definition loadProfiles (fault : bool) (st : t) : t :=
  let st :=
    if fault then toast st profilesFailed
    else mk (app st) (Store.profiles (App.store (app st))) (loading st)
            (newUser st) in
  mk (app st) (profiles st) false (newUser st).

(** [onDataChange={loadData}]. *)
Definition onDataChange (env : UsersEnv) (st : t) : t :=
  set_app st (App.loadData (reload_select_fault env) (reload_rpc_fault env)
                           (app st)).

(** [!newUser.email || !newUser.password || !newUser.roleId]. *)
Definition incomplete (f : NewUser) : bool :=
  String.eqb (email f) "" || String.eqb (password f) "" ||
  String.eqb (roleId f) "".

(** [createUser]. *)
Definition createUser (env : UsersEnv) (st : t) : t :=
  if incomplete (newUser st) then toast st validationError
  else
    match signUp env with
    | SignUpError => toast st createFailed
    | SignUpNoUser => st
    | SignUpUser user_id after =>
        let st := set_app st (App.set_store (app st) after) in
        match Profiles.insert after (profile_write_fault env)
                (new_profile_id env) user_id (email (newUser st))
                (fullName (newUser st)) (roleId (newUser st)) with
        | Store.Error _ => toast st createFailed
        | Store.Data db =>
            let st := set_app st (App.set_store (app st) db) in
            let st := toast st createSucceeded in
            let st := mk (app st) (profiles st) (loading st) emptyForm in
            let st := loadProfiles (profiles_select_fault env) st in
            onDataChange env st
        end
    end.

(** [updateUserRole]. *)
Definition updateUserRole (env : UsersEnv) (profileId newRoleId : string)
  (st : t) : t :=
  match Profiles.update_role (App.store (app st)) (profile_write_fault env)
          profileId newRoleId with
  | Store.Error _ => toast st roleUpdateFailed
  | Store.Data db =>
      let st := set_app st (App.set_store (app st) db) in
      let st := toast st roleUpdated in
      let st := loadProfiles (profiles_select_fault env) st in
      onDataChange env st
  end.

(** [getRoleName]: [role?.name || 'No Role'] over the [roles] prop. *)
Definition getRoleName (roles : list Role.t) (roleId : string) : string :=
  or_string
    (option_map Role.name
       (find (fun r => String.eqb (Role.id r) roleId) roles))
    "No Role".

(** [getRoleColor]: [role?.color || '#6B7280']. *)
Definition getRoleColor (roles : list Role.t) (roleId : string) : string :=
  or_string
    (option_map Role.color
       (find (fun r => String.eqb (Role.id r) roleId) roles))
    "#6B7280".

(** The role column of a user's row:
    [profile.role_id ? getRoleName(profile.role_id) : 'No Role']. *)
Definition roleLabel (roles : list Role.t) (profile : Profile.t) : string :=
  match Profile.role_id profile with
  | Some rid => if String.eqb rid "" then "No Role" else getRoleName roles rid
  | None => "No Role"
  end.
End Users.

(** ** The mock sign-in: [AuthProvider] *)

Module MockUser.
Record t : Type := mk {
  id : string;
  name : string;
  email : string;
  password : string;
  role : string
}.
End MockUser.

Module User.
Record t : Type := mk {
  id : string;
  name : string;
  email : string;
  role : string
}.
End User.

Module Auth.
Definition mockUsers : list MockUser.t :=
  [MockUser.mk "1" "Admin User" "admin@company.com" "admin123" "Administrator";
   MockUser.mk "2" "Manager User" "manager@company.com" "manager123" "Manager";
   MockUser.mk "3" "Employee User" "employee@company.com" "employee123" "Employee"].

(** [users.find(u => u.email === email && u.password === password)], then
    [setUser] with everything but the password, and the boolean answer. *)
Definition login_in (users : list MockUser.t) (email password : string)
  (user : option User.t) : bool * option User.t :=
  match find (fun u => String.eqb (MockUser.email u) email &&
                       String.eqb (MockUser.password u) password) users with
  | Some foundUser =>
      (true, Some (User.mk (MockUser.id foundUser) (MockUser.name foundUser)
                           (MockUser.email foundUser) (MockUser.role foundUser)))
  | None => (false, user)
  end.

(** [login]. *)
Definition login (email password : string) (user : option User.t)
  : bool * option User.t :=
  login_in mockUsers email password user.

(** [logout]. *)
Definition logout (user : option User.t) : option User.t := None.

(** [isAuthenticated: !!user]. *)
Definition isAuthenticated (user : option User.t) : bool :=
  match user with Some _ => true | None => false end.
End Auth.

(** ** The matrix over local data: [AuthorizationMatrix] *)

Module Local.
Inductive Status : Type :=
| allowed
| denied
| conditional.

Record Role : Type := mkRole {
  role_id : string;
  role_name : string;
  department : string;
  level : Z;
  role_color : string
}.

Record Action : Type := mkAction {
  action_id : string;
  action_name : string;
  category : string;
  riskLevel : string;
  description : string
}.

Record Permission : Type := mkPermission {
  roleId : string;
  actionId : string;
  status : Status;
  conditions : option string;
  limit : option Z
}.

(** The component's state. *)
Record t : Type := mk {
  roles : list Role;
  actions : list Action;
  permissions : list Permission;
  selectedCategory : string;
  selectedRole : string
}.

(** [['all', ...new Set(actions.map(action => action.category))]]. *)
Definition categories (st : t) : list string :=
  "all" :: array_from_set (map category (actions st)).

(** [selectedCategory === 'all' ? actions
     : actions.filter(action => action.category === selectedCategory)]. *)
Definition filteredActions (st : t) : list Action :=
  if String.eqb (selectedCategory st) "all" then actions st
  else filter (fun action => String.eqb (category action) (selectedCategory st))
              (actions st).

(** [selectedRole === 'all' ? roles
     : roles.filter(role => role.id === selectedRole)]. *)
Definition filteredRoles (st : t) : list Role :=
  if String.eqb (selectedRole st) "all" then roles st
  else filter (fun role => String.eqb (role_id role) (selectedRole st))
              (roles st).

(** [permissions.find(p => p.roleId === roleId && p.actionId === actionId)]. *)
Definition getPermission (st : t) (role action : string) : option Permission :=
  find (fun p => String.eqb (roleId p) role && String.eqb (actionId p) action)
       (permissions st).

(** The table: a row per filtered action, a cell per filtered role. *)
Definition table (st : t) : list (Action * list (Role * option Permission)) :=
  map (fun action =>
         (action,
          map (fun role => (role, getPermission st (role_id role) (action_id action)))
              (filteredRoles st)))
      (filteredActions st).

(** [permissions.filter(p => p.status === 'allowed').length]. *)
Definition allowedCount (st : t) : nat :=
  length (filter (fun p => match status p with allowed => true | _ => false end)
                 (permissions st)).

(** [actions.filter(a => a.riskLevel === 'critical').length]. *)
Definition criticalCount (st : t) : nat :=
  length (filter (fun a => String.eqb (riskLevel a) "critical") (actions st)).
End Local.

(** ** Sample data for the added components *)

Module Sample2.
Definition admin : Role.t :=
  Role.mk "role-admin" "Admin" "Can view, edit, manage all users and roles"
          "#DC2626" true.
Definition viewOnly : Role.t :=
  Role.mk "role-view" "View Only" "Can only view the authorization matrix"
          "#6B7280" true.

Definition alice : Profile.t :=
  Profile.mk "profile-1" "user-1" (Some "Alice") (Some "alice@example.com")
             (Some "role-view").
Definition bob : Profile.t :=
  Profile.mk "profile-2" "user-2" (Some "Bob") (Some "bob@example.com") None.

Definition db : Store.t :=
  Store.mk [admin; viewOnly] Sample.actions Sample.permissions [alice; bob].

(** The container of [user-1] right after a successful [loadData]. *)
Definition app : App.t :=
  App.mk db (Some "user-1") [admin; viewOnly] Sample.actions
         Sample.permissions [alice; bob] false "View Only" [].

Definition users : Users.t :=
  Users.mk app [alice; bob] false (Users.mkNewUser "" "" "" "").

(** Nothing fails. *)
Definition fine : UsersEnv :=
  mkUsersEnv SignUpNoUser false "profile-9" false false false.

(** An action without description among described ones. *)
Definition legacy_view (searchTerm : string) : View.t :=
  View.mk Sample.roles Sample.actions Sample.permissions "" "all" searchTerm.

Definition local : Local.t :=
  Local.mk
    [Local.mkRole "1" "CEO" "Executive" 5 "purple";
     Local.mkRole "2" "CFO" "Finance" 4 "blue"]
    [Local.mkAction "1" "Approve Purchase Orders" "Procurement" "medium" "";
     Local.mkAction "2" "Hire Staff" "HR" "high" "";
     Local.mkAction "10" "Terminate Staff" "HR" "critical" ""]
    [Local.mkPermission "1" "1" Local.allowed None None;
     Local.mkPermission "2" "1" Local.allowed None (Some 100000%Z)]
    "HR" "2".
End Sample2.

(** ** Counting characters of the export *)

(** How often [c] occurs in [s]. *)
Fixpoint count_char (c : ascii) (s : string) : nat :=
  match s with
  | EmptyString => 0
  | String d s' => (if Ascii.eqb d c then 1 else 0) + count_char c s'
  end.

Definition lf : ascii := "010"%char.

(** * Properties *)

(** ** Rows and pairs *)

Lemma matches_true (roleId actionId : string) (p : Permission.t) :
  matches roleId actionId p = true <->
  Permission.role_id p = roleId /\ Permission.action_id p = actionId.
Proof.
  unfold matches. rewrite andb_true_iff, !String.eqb_eq. tauto.
Qed.

Lemma matches_false (roleId actionId : string) (p : Permission.t) :
  matches roleId actionId p = false <->
  ~ (Permission.role_id p = roleId /\ Permission.action_id p = actionId).
Proof.
  split.
  - intros H Ht. apply matches_true in Ht. congruence.
  - intros H. destruct (matches roleId actionId p) eqn:E; [|reflexivity].
    exfalso. apply H, matches_true, E.
Qed.

Lemma matches_own_pair (p : Permission.t) :
  matches (Permission.role_id p) (Permission.action_id p) p = true.
Proof. apply matches_true; split; reflexivity. Qed.

Lemma has_pair_true (roleId actionId : string) (ps : list Permission.t) :
  Store.has_pair roleId actionId ps = true <->
  exists p, In p ps /\ matches roleId actionId p = true.
Proof. unfold Store.has_pair. apply existsb_exists. Qed.

Lemma has_pair_getPermission (roleId actionId : string)
  (ps : list Permission.t) :
  Store.has_pair roleId actionId ps = false <->
  getPermission ps roleId actionId = None.
Proof.
  unfold Store.has_pair, getPermission.
  induction ps as [|p ps IH]; simpl; [tauto|].
  destruct (matches roleId actionId p); simpl; [split; discriminate | exact IH].
Qed.

Lemma getPermission_some (ps : list Permission.t) (roleId actionId : string)
  (p : Permission.t) :
  getPermission ps roleId actionId = Some p ->
  In p ps /\ Permission.role_id p = roleId /\ Permission.action_id p = actionId.
Proof.
  intros H. apply find_some in H. destruct H as [Hin Hm].
  apply matches_true in Hm. tauto.
Qed.

Lemma getPermission_none (ps : list Permission.t) (roleId actionId : string) :
  getPermission ps roleId actionId = None <->
  forall p, In p ps ->
    ~ (Permission.role_id p = roleId /\ Permission.action_id p = actionId).
Proof.
  split.
  - intros H p Hin. apply matches_false. exact (find_none _ _ H p Hin).
  - intros H. unfold getPermission.
    induction ps as [|p ps IH]; simpl; [reflexivity|].
    assert (Hp : matches roleId actionId p = false)
      by (apply matches_false, H; left; reflexivity).
    rewrite Hp. apply IH. intros q Hq. apply H. right; exact Hq.
Qed.

(** The first match: rows before it do not match. *)
Lemma getPermission_first (l1 l2 : list Permission.t) (p : Permission.t)
  (roleId actionId : string) :
  (forall q, In q l1 -> matches roleId actionId q = false) ->
  matches roleId actionId p = true ->
  getPermission (l1 ++ p :: l2) roleId actionId = Some p.
Proof.
  unfold getPermission. induction l1 as [|q l1 IH]; simpl; intros Hbefore Hp.
  - rewrite Hp. reflexivity.
  - rewrite (Hbefore q (or_introl eq_refl)). apply IH; auto.
Qed.

(** Under [UNIQUE(role_id, action_id)] the row a pair resolves to is the
    only row of that pair. *)
Lemma unique_pairs_getPermission (ps : list Permission.t) (p : Permission.t) :
  unique_pairs ps = true -> In p ps ->
  getPermission ps (Permission.role_id p) (Permission.action_id p) = Some p.
Proof.
  unfold getPermission. induction ps as [|q ps IH]; simpl; [tauto|].
  intros Hu [Heq | Hin].
  - subst q. rewrite matches_own_pair. reflexivity.
  - apply andb_true_iff in Hu. destruct Hu as [Hq Hu].
    apply negb_true_iff in Hq.
    destruct (matches (Permission.role_id p) (Permission.action_id p) q) eqn:Hm.
    + exfalso. apply matches_true in Hm. destruct Hm as [Hr Ha].
      assert (Hex : Store.has_pair (Permission.role_id q)
                      (Permission.action_id q) ps = true).
      { apply has_pair_true. exists p. split; [exact Hin|].
        apply matches_true. split; congruence. }
      congruence.
    + apply IH; assumption.
Qed.

Lemma unique_pairs_rows_for (ps : list Permission.t) (roleId actionId : string) :
  unique_pairs ps = true -> (rows_for roleId actionId ps <= 1)%nat.
Proof.
  unfold rows_for. induction ps as [|q ps IH]; simpl; [lia|].
  intros Hu. apply andb_true_iff in Hu. destruct Hu as [Hq Hu].
  apply negb_true_iff in Hq. specialize (IH Hu).
  destruct (matches roleId actionId q) eqn:Hm; simpl; [|exact IH].
  apply matches_true in Hm. destruct Hm as [Hr Ha]. subst roleId actionId.
  assert (Hnone : filter (matches (Permission.role_id q)
                            (Permission.action_id q)) ps = []).
  { unfold Store.has_pair in Hq.
    clear IH Hu. induction ps as [|x ps IHps]; simpl in *; [reflexivity|].
    apply orb_false_iff in Hq. destruct Hq as [Hx Hq].
    rewrite Hx. apply IHps, Hq. }
  rewrite Hnone. simpl. lia.
Qed.

(** ** Permission resolver *)

(** C1: a pair with no matching row resolves to [denied] with no limit
    and no conditions; when a row of the pair exists, the pair resolves to
    the status, limit and conditions of a row of that pair, unchanged, and
    under the one-row-per-pair invariant that is the row itself. *)
Theorem resolve_default_deny_or_verbatim
  (permissions : list Permission.t) (roleId actionId : string) :
  ((forall p, In p permissions ->
      ~ (Permission.role_id p = roleId /\ Permission.action_id p = actionId)) ->
   resolve permissions roleId actionId = mkResolved denied None None)
  /\
  (forall p, In p permissions ->
     Permission.role_id p = roleId -> Permission.action_id p = actionId ->
     exists q,
       In q permissions /\
       Permission.role_id q = roleId /\ Permission.action_id q = actionId /\
       getPermission permissions roleId actionId = Some q /\
       resolve permissions roleId actionId =
         mkResolved (Permission.status q) (Permission.limit_value q)
                    (Permission.conditions q) /\
       (unique_pairs permissions = true -> q = p)).
Proof.
  split.
  - intros Hnone. apply getPermission_none in Hnone.
    unfold resolve. rewrite Hnone. reflexivity.
  - intros p Hin Hr Ha.
    destruct (getPermission permissions roleId actionId) as [q|] eqn:Hget.
    + destruct (getPermission_some _ _ _ _ Hget) as (Hq & Hqr & Hqa).
      exists q. repeat split; try assumption.
      * unfold resolve. rewrite Hget. reflexivity.
      * intros Hu. pose proof (unique_pairs_getPermission _ _ Hu Hin) as Hp.
        rewrite Hr, Ha in Hp. congruence.
    + exfalso. rewrite getPermission_none in Hget. apply (Hget p Hin). tauto.
Qed.

(** C10: resolution returns the first row, in list order, of the pair:
    rows of the same pair further down are ignored, and the same list
    gives the same row every time. *)
Theorem getPermission_first_match
  (before after : list Permission.t) (p : Permission.t)
  (roleId actionId : string) :
  (forall q, In q before ->
     ~ (Permission.role_id q = roleId /\ Permission.action_id q = actionId)) ->
  Permission.role_id p = roleId -> Permission.action_id p = actionId ->
  getPermission (before ++ p :: after) roleId actionId = Some p /\
  resolve (before ++ p :: after) roleId actionId =
    mkResolved (Permission.status p) (Permission.limit_value p)
               (Permission.conditions p) /\
  (forall after',
     getPermission (before ++ p :: after') roleId actionId = Some p) /\
  (forall permissions',
     permissions' = before ++ p :: after ->
     getPermission permissions' roleId actionId =
     getPermission (before ++ p :: after) roleId actionId).
Proof.
  intros Hbefore Hr Ha.
  assert (Hb : forall q, In q before -> matches roleId actionId q = false)
    by (intros q Hq; apply matches_false, Hbefore, Hq).
  assert (Hp : matches roleId actionId p = true)
    by (apply matches_true; tauto).
  assert (Hget : forall rest,
             getPermission (before ++ p :: rest) roleId actionId = Some p)
    by (intros rest; apply getPermission_first; assumption).
  repeat split.
  - apply Hget.
  - unfold resolve. rewrite Hget. reflexivity.
  - intros after'. apply Hget.
  - intros permissions' ->. reflexivity.
Qed.

(** The sample catalog: no row for (Employee, Deploy Code), one row for
    (Manager, Approve Expense Reports). *)
Lemma resolve_default_deny_or_verbatim_witness :
  resolve Sample.permissions "role-employee" "act-deploy"
    = mkResolved denied None None /\
  resolve Sample.permissions "role-manager" "act-approve"
    = mkResolved granted (Some 10000%Z) None.
Proof.
  split.
  - apply (proj1 (resolve_default_deny_or_verbatim
                    Sample.permissions "role-employee" "act-deploy")).
    intros p Hin [Hr _]. simpl in Hin.
    destruct Hin as [<- | [<- | []]]; discriminate Hr.
  - destruct (proj2 (resolve_default_deny_or_verbatim
                       Sample.permissions "role-manager" "act-approve")
                    Sample.manager_approve
                    (or_introl eq_refl) eq_refl eq_refl)
      as (q & _ & _ & _ & _ & Hres & Hq).
    rewrite Hres, (Hq eq_refl). reflexivity.
Defined.

(** Two rows of one pair, the granted one first: the later one is ignored. *)
Lemma getPermission_first_match_witness :
  getPermission
    ([Sample.manager_reports] ++
     Sample.manager_approve :: [Sample.manager_approve_again])
    "role-manager" "act-approve" = Some Sample.manager_approve.
Proof.
  refine (proj1 (getPermission_first_match
                   [Sample.manager_reports] [Sample.manager_approve_again]
                   Sample.manager_approve "role-manager" "act-approve"
                   _ eq_refl eq_refl)).
  intros q Hin [_ Ha]. simpl in Hin.
  destruct Hin as [<- | []]. discriminate Ha.
Defined.

(** ** Access policy gate *)

Lemma isAdmin_true (s : string) : isAdmin s = true <-> s = "Admin".
Proof. unfold isAdmin. apply String.eqb_eq. Qed.

Lemma canEdit_true (s : string) :
  canEdit s = true <-> s = "Edit & View" \/ s = "Admin".
Proof. unfold canEdit. rewrite orb_true_iff, !String.eqb_eq. tauto. Qed.

Lemma unprivileged_name (s : string) :
  s <> "Admin" -> s <> "Edit & View" -> isAdmin s = false /\ canEdit s = false.
Proof.
  intros Ha He. unfold canEdit, isAdmin.
  destruct (String.eqb_spec s "Admin"); [contradiction|].
  destruct (String.eqb_spec s "Edit & View"); [contradiction|].
  split; reflexivity.
Qed.

(** C3: the gate matches role names exactly and fails closed.  "Admin"
    opens the admin panel and editing, "Edit & View" opens editing only,
    every other name and the missing role open neither; what a role name
    permits is nested: Admin over Edit & View over anything else.  The
    SQL policies agree, a NULL role name passing neither. *)
Theorem capability_gate_exact_and_fail_closed :
  (isAdmin "Admin" = true /\ canEdit "Admin" = true /\
   capability_of (Some "Admin") = Admin) /\
  (isAdmin "Edit & View" = false /\ canEdit "Edit & View" = true /\
   capability_of (Some "Edit & View") = CanEdit) /\
  (forall s, s <> "Admin" -> s <> "Edit & View" ->
     isAdmin s = false /\ canEdit s = false /\
     capability_of (Some s) = ViewOnly /\
     policy_using (sql_is_admin (Some s)) = false /\
     policy_using (sql_can_edit (Some s)) = false) /\
  (capability_of None = ViewOnly /\
   isAdmin (userRole_of None) = false /\ canEdit (userRole_of None) = false /\
   policy_using (sql_is_admin None) = false /\
   policy_using (sql_can_edit None) = false) /\
  (forall s op, s <> "Admin" ->
     permitted s op = true -> permitted "Edit & View" op = true) /\
  (forall s op, permitted s op = true -> permitted "Admin" op = true) /\
  (forall s, permitted s OpView = true).
Proof.
  split; [repeat split|]. split; [repeat split|].
  split; [|split; [repeat split|split; [|split]]].
  - intros s Hadmin Hedit.
    destruct (unprivileged_name s Hadmin Hedit) as [HA HE].
    split; [exact HA|]. split; [exact HE|]. split; [|split].
    + unfold capability_of, userRole_of, or_string.
      destruct (String.eqb_spec s ""); [reflexivity|].
      rewrite HA, HE. reflexivity.
    + simpl. unfold isAdmin in HA. rewrite HA. reflexivity.
    + simpl. unfold canEdit in HE. rewrite HE. reflexivity.
  - intros s op Hs. destruct op; simpl; try reflexivity.
    intros Hadm. apply isAdmin_true in Hadm. contradiction.
  - intros s op. destruct op; simpl; reflexivity.
  - intros s. reflexivity.
Qed.

(** The names "admin" and "View Only" open nothing but viewing. *)
Lemma capability_gate_exact_and_fail_closed_witness :
  (isAdmin "admin" = false /\ canEdit "admin" = false) /\
  capability_of (Some "View Only") = ViewOnly /\
  permitted "Edit & View" OpEdit = true.
Proof.
  destruct capability_gate_exact_and_fail_closed
    as (_ & _ & Hother & _ & Hnest & _ & _).
  split; [|split].
  - destruct (Hother "admin") as (Ha & He & _); [discriminate | discriminate |].
    split; assumption.
  - destruct (Hother "View Only") as (_ & _ & Hc & _);
      [discriminate | discriminate | exact Hc].
  - apply (Hnest "Edit & View" OpEdit); [discriminate | reflexivity].
Defined.

(** ** Toggle cycle, the pure part *)

Lemma nextStatus_cycle :
  nextStatus denied = granted /\
  nextStatus granted = conditional /\
  nextStatus conditional = denied.
Proof. repeat split. Qed.

Lemma nextStatus_thrice (s : Status) :
  nextStatus (nextStatus (nextStatus s)) = s.
Proof. destruct s; reflexivity. Qed.

(** ** Export *)

Lemma nth_error_rows {A B C : Type} (f : A -> B -> C) (xs : list A)
  (ys : list B) (i j : nat) (x : A) (y : B) :
  nth_error xs i = Some x -> nth_error ys j = Some y ->
  nth_error (flat_map (fun a => map (f a) ys) xs) (i * length ys + j)
  = Some (f x y).
Proof.
  revert i. induction xs as [|a xs IH]; intros i Hx Hy.
  - destruct i; discriminate.
  - destruct i as [|i]; simpl in *.
    + injection Hx as ->.
      rewrite nth_error_app1.
      * apply map_nth_error, Hy.
      * rewrite length_map. apply nth_error_Some. congruence.
    + rewrite nth_error_app2 by (rewrite length_map; lia).
      rewrite length_map.
      replace (length ys + i * length ys + j - length ys)%nat
        with (i * length ys + j)%nat by lia.
      apply IH; assumption.
Qed.

Lemma or_string_empty (x : option string) :
  or_string x "" = match x with Some c => c | None => "" end.
Proof.
  destruct x as [c|]; simpl; [|reflexivity].
  destruct (String.eqb_spec c ""); congruence.
Qed.

(** The row the code pushes, field by field. *)
Lemma exportRow_exported_row (v : View.t) (role : Role.t) (action : Action.t) :
  View.exportRow v role action = exported_row (View.permissions v) role action.
Proof.
  unfold View.exportRow, exported_row.
  destruct (getPermission (View.permissions v) (Role.id role) (Action.id action))
    as [p|]; simpl; [|reflexivity].
  rewrite or_string_empty.
  destruct (Permission.limit_value p); reflexivity.
Qed.

Lemma concat_cons_starts (sep x : string) (xs : list string) :
  exists rest, String.concat sep (x :: xs) = (x ++ rest)%string.
Proof.
  destruct xs as [|y ys]; simpl.
  - exists "". clear. induction x; simpl; congruence.
  - eexists. reflexivity.
Qed.

Lemma rows_name_pairs (v : View.t) (roles : list Role.t)
  (actions : list Action.t) :
  map (fun row => (nth 0 row (FStr ""), nth 1 row (FStr "")))
      (flat_map (fun role => map (fun action => View.exportRow v role action)
                                 actions) roles)
  = map (fun ra => (FStr (Role.name (fst ra)), FStr (Action.name (snd ra))))
        (list_prod roles actions).
Proof.
  induction roles as [|role roles IH]; simpl; [reflexivity|].
  rewrite !map_app, !map_map, IH. reflexivity.
Qed.

(** C6: the export has one data row per (role, action) of the whole
    catalog, [|roles| * |actions|] rows, whatever the category filter and
    the search term are. *)
Theorem export_row_count
  (roles : list Role.t) (actions : list Action.t)
  (permissions : list Permission.t)
  (userRole selectedCategory searchTerm : string) :
  let v := View.mk roles actions permissions userRole
                   selectedCategory searchTerm in
  length (View.dataRows v) = (length roles * length actions)%nat /\
  length (View.csvData v) = S (length roles * length actions) /\
  View.dataRows v =
    View.dataRows (View.mk roles actions permissions userRole "all" "") /\
  map (fun row => (nth 0 row (FStr ""), nth 1 row (FStr ""))) (View.dataRows v)
    = map (fun ra => (FStr (Role.name (fst ra)), FStr (Action.name (snd ra))))
          (list_prod roles actions).
Proof.
  intros v.
  assert (Hlen : length (View.dataRows v) = (length roles * length actions)%nat).
  { unfold View.dataRows. apply flat_map_constant_length.
    intros role _. apply length_map. }
  repeat split.
  - exact Hlen.
  - simpl. f_equal. exact Hlen.
  - apply (rows_name_pairs v roles actions).
Qed.

(** The export as the code writes it: it starts with the header Role,
    Action, Status, Limit, Conditions, Category; the data row of the
    [i]-th role and the [j]-th action is the role's name, the action's
    name, the status or "denied", the limit when there is one and it is
    not zero (empty otherwise), the conditions or empty, the action's
    category; every field of every line stands between double quotes,
    fields are joined by commas and lines by newlines. *)
Lemma export_rows_are_sextuples
  (v : View.t) (i j : nat) (role : Role.t) (action : Action.t) :
  nth_error (View.roles v) i = Some role ->
  nth_error (View.actions v) j = Some action ->
  nth_error (View.dataRows v) (i * length (View.actions v) + j)
    = Some (exported_row (View.permissions v) role action) /\
  nth_error (View.csvData v) 0 = Some View.header /\
  (exists rest, View.csvContent v = (header_line ++ rest)%string) /\
  View.csvContent v =
    String.concat View.newline
      (map (fun row =>
              String.concat ","
                (map (fun f => (dquote ++ field_string f ++ dquote)%string) row))
           (View.csvData v)).
Proof.
  intros Hrole Haction. repeat split.
  - unfold View.dataRows.
    rewrite <- exportRow_exported_row.
    exact (nth_error_rows (View.exportRow v) _ _ i j role action Hrole Haction).
  - unfold View.csvContent, View.csvData. simpl map.
    change (View.csvLine View.header) with header_line.
    apply concat_cons_starts.
Qed.

(** The row the code writes is the row the specification words, unless
    the permission of the pair carries a limit of zero. *)
Lemma exported_row_claimed (permissions : list Permission.t) (role : Role.t)
  (action : Action.t) :
  (forall p,
     getPermission permissions (Role.id role) (Action.id action) = Some p ->
     Permission.limit_value p <> Some 0%Z) ->
  exported_row permissions role action = claimed_row permissions role action.
Proof.
  intros Hnz. unfold exported_row, claimed_row.
  destruct (getPermission permissions (Role.id role) (Action.id action))
    as [p|]; [|reflexivity].
  specialize (Hnz p eq_refl).
  destruct (Permission.limit_value p) as [n|]; [|reflexivity].
  destruct (Z.eqb_spec n 0); [subst n; contradiction | reflexivity].
Qed.

(** The sample catalog: row 0 * 4 + 0 is (Manager, Approve Expense
    Reports) with its limit, row 1 * 4 + 3 is (Employee, Deploy Code),
    which has no permission row. *)
Lemma export_rows_sample :
  nth_error (View.dataRows (Sample.view "Financial" "budget")) 0
    = Some [FStr "Manager"; FStr "Approve Expense Reports"; FStr "granted";
            FNum 10000; FStr ""; FStr "Financial"] /\
  nth_error (View.dataRows (Sample.view "Financial" "budget")) 7
    = Some [FStr "Employee"; FStr "Deploy Code"; FStr "denied";
            FStr ""; FStr ""; FStr "System"].
Proof.
  split.
  - exact (proj1 (export_rows_are_sextuples
                    (Sample.view "Financial" "budget") 0 0
                    Sample.manager Sample.approve eq_refl eq_refl)).
  - exact (proj1 (export_rows_are_sextuples
                    (Sample.view "Financial" "budget") 1 3
                    Sample.employee Sample.deploy eq_refl eq_refl)).
Defined.

(** C7 at a permission whose [limit_value] is 0: the specification's row
    for (Employee, Approve Expense Reports) carries the limit 0, the row
    the export writes carries an empty Limit field, because
    [permission?.limit_value || ''] takes 0 for no value. *)
Theorem export_drops_zero_limit :
  getPermission (View.permissions Sample.zero_view)
                "role-employee" "act-approve"
    = Some Sample.employee_approve_zero /\
  Permission.limit_value Sample.employee_approve_zero = Some 0%Z /\
  claimed_row (View.permissions Sample.zero_view) Sample.employee Sample.approve
    = [FStr "Employee"; FStr "Approve Expense Reports"; FStr "granted";
       FNum 0; FStr ""; FStr "Financial"] /\
  View.dataRows Sample.zero_view
    = [[FStr "Employee"; FStr "Approve Expense Reports"; FStr "granted";
        FStr ""; FStr ""; FStr "Financial"]] /\
  nth_error (View.dataRows Sample.zero_view) 0
    <> Some (claimed_row (View.permissions Sample.zero_view)
                         Sample.employee Sample.approve) /\
  nth 3 (map quoted (claimed_row (View.permissions Sample.zero_view)
                                 Sample.employee Sample.approve)) ""
    = (dquote ++ "0" ++ dquote)%string /\
  nth 3 (map quoted (View.exportRow Sample.zero_view
                                    Sample.employee Sample.approve)) ""
    = (dquote ++ dquote)%string.
Proof.
  repeat split; try reflexivity; discriminate.
Qed.

(** ** Projection: the action filter *)








Lemma matchesSearch_false (L : CaseMap) (v : View.t) (action : Action.t) :
  includes (toLowerCase L (Action.name action))
           (toLowerCase L (View.searchTerm v)) = false ->
  (forall d, Action.description action = Some d ->
             includes (toLowerCase L d) (toLowerCase L (View.searchTerm v))
             = false) ->
  View.matchesSearch L v action = false.
Proof.
  intros Hname Hdesc. unfold View.matchesSearch. rewrite Hname. simpl.
  destruct (Action.description action) as [d|]; [|reflexivity].
  exact (Hdesc d eq_refl).
Qed.






(** ** Store writes *)

Lemma patch_status_pair (id : string) (s : Status) (p : Permission.t)
  (roleId actionId : string) :
  matches roleId actionId (Store.patch_status id s p) = matches roleId actionId p.
Proof. unfold Store.patch_status. destruct (String.eqb _ _); reflexivity. Qed.

Lemma patch_status_id (id : string) (s : Status) (p : Permission.t) :
  Permission.id (Store.patch_status id s p) = Permission.id p.
Proof. unfold Store.patch_status. destruct (String.eqb _ _); reflexivity. Qed.

Lemma patch_status_limit (id : string) (s : Status) (p : Permission.t) :
  Permission.limit_value (Store.patch_status id s p) = Permission.limit_value p /\
  Permission.conditions (Store.patch_status id s p) = Permission.conditions p.
Proof. unfold Store.patch_status. destruct (String.eqb _ _); split; reflexivity. Qed.

Lemma patch_status_own (s : Status) (p : Permission.t) :
  Store.patch_status (Permission.id p) s p = Permission.with_status p s.
Proof. unfold Store.patch_status. rewrite String.eqb_refl. reflexivity. Qed.

Lemma has_pair_patch (id : string) (s : Status) (ps : list Permission.t)
  (roleId actionId : string) :
  Store.has_pair roleId actionId (map (Store.patch_status id s) ps)
  = Store.has_pair roleId actionId ps.
Proof.
  unfold Store.has_pair. induction ps as [|p ps IH]; simpl; [reflexivity|].
  rewrite patch_status_pair, IH. reflexivity.
Qed.

Lemma has_id_patch (id : string) (s : Status) (ps : list Permission.t)
  (i : string) :
  Store.has_id i (map (Store.patch_status id s) ps) = Store.has_id i ps.
Proof.
  unfold Store.has_id. induction ps as [|p ps IH]; simpl; [reflexivity|].
  rewrite patch_status_id, IH. reflexivity.
Qed.

Lemma patch_status_absent (id : string) (s : Status) (ps : list Permission.t) :
  Store.has_id id ps = false -> map (Store.patch_status id s) ps = ps.
Proof.
  unfold Store.has_id. induction ps as [|p ps IH]; simpl; [reflexivity|].
  intros H. apply orb_false_iff in H. destruct H as [Hp Hps].
  unfold Store.patch_status at 1. rewrite Hp, (IH Hps). reflexivity.
Qed.

(** A second update of a row overwrites the status of the first. *)
Lemma patch_status_again (id : string) (s1 s2 : Status) (p : Permission.t) :
  Store.patch_status id s2 (Store.patch_status id s1 p)
  = Store.patch_status id s2 p.
Proof.
  unfold Store.patch_status.
  destruct (String.eqb (Permission.id p) id) eqn:Hid; [|rewrite Hid; reflexivity].
  simpl. rewrite Hid. reflexivity.
Qed.

Lemma map_patch_status_again (id : string) (s1 s2 : Status)
  (ps : list Permission.t) :
  map (Store.patch_status id s2) (map (Store.patch_status id s1) ps)
  = map (Store.patch_status id s2) ps.
Proof.
  rewrite map_map. apply map_ext. intros p. apply patch_status_again.
Qed.

Lemma unique_pairs_patch (id : string) (s : Status) (ps : list Permission.t) :
  unique_pairs (map (Store.patch_status id s) ps) = unique_pairs ps.
Proof.
  induction ps as [|p ps IH]; simpl; [reflexivity|].
  rewrite has_pair_patch, IH.
  unfold Store.patch_status. destruct (String.eqb _ _); reflexivity.
Qed.

Lemma unique_ids_patch (id : string) (s : Status) (ps : list Permission.t) :
  unique_ids (map (Store.patch_status id s) ps) = unique_ids ps.
Proof.
  induction ps as [|p ps IH]; simpl; [reflexivity|].
  rewrite has_id_patch, patch_status_id, IH. reflexivity.
Qed.

Lemma rows_for_patch (id : string) (s : Status) (ps : list Permission.t)
  (roleId actionId : string) :
  rows_for roleId actionId (map (Store.patch_status id s) ps)
  = rows_for roleId actionId ps.
Proof.
  unfold rows_for. induction ps as [|p ps IH]; simpl; [reflexivity|].
  rewrite patch_status_pair. destruct (matches roleId actionId p); simpl; congruence.
Qed.

Lemma getPermission_patch (id : string) (s : Status) (ps : list Permission.t)
  (roleId actionId : string) :
  getPermission (map (Store.patch_status id s) ps) roleId actionId
  = option_map (Store.patch_status id s) (getPermission ps roleId actionId).
Proof.
  unfold getPermission. induction ps as [|p ps IH]; simpl; [reflexivity|].
  rewrite patch_status_pair. destruct (matches roleId actionId p); [reflexivity | exact IH].
Qed.

Lemma unique_pairs_snoc (ps : list Permission.t) (p : Permission.t) :
  unique_pairs ps = true ->
  Store.has_pair (Permission.role_id p) (Permission.action_id p) ps = false ->
  unique_pairs (ps ++ [p]) = true.
Proof.
  induction ps as [|q ps IH]; simpl; intros Hu Hp; [reflexivity|].
  apply andb_true_iff in Hu. destruct Hu as [Hq Hu].
  apply orb_false_iff in Hp. destruct Hp as [Hqp Hp].
  rewrite (IH Hu Hp), andb_true_r.
  unfold Store.has_pair in *. rewrite existsb_app. simpl.
  apply negb_true_iff in Hq. rewrite Hq. simpl. rewrite orb_false_r.
  apply negb_true_iff.
  apply matches_false. intros [Hr Ha].
  apply matches_false in Hqp. apply Hqp. split; congruence.
Qed.

Lemma unique_ids_snoc (ps : list Permission.t) (p : Permission.t) :
  unique_ids ps = true -> Store.has_id (Permission.id p) ps = false ->
  unique_ids (ps ++ [p]) = true.
Proof.
  induction ps as [|q ps IH]; simpl; intros Hu Hp; [reflexivity|].
  apply andb_true_iff in Hu. destruct Hu as [Hq Hu].
  apply orb_false_iff in Hp. destruct Hp as [Hqp Hp].
  rewrite (IH Hu Hp), andb_true_r.
  unfold Store.has_id in *. rewrite existsb_app. simpl.
  apply negb_true_iff in Hq. rewrite Hq. simpl. rewrite orb_false_r.
  apply negb_true_iff. rewrite String.eqb_sym. exact Hqp.
Qed.

Lemma getPermission_snoc (ps : list Permission.t) (p : Permission.t)
  (roleId actionId : string) :
  getPermission (ps ++ [p]) roleId actionId =
  match getPermission ps roleId actionId with
  | Some q => Some q
  | None => if matches roleId actionId p then Some p else None
  end.
Proof.
  unfold getPermission. induction ps as [|q ps IH]; simpl; [reflexivity|].
  destruct (matches roleId actionId q); [reflexivity | exact IH].
Qed.

Lemma rows_for_snoc (ps : list Permission.t) (p : Permission.t)
  (roleId actionId : string) :
  rows_for roleId actionId (ps ++ [p]) =
  (rows_for roleId actionId ps + if matches roleId actionId p then 1 else 0)%nat.
Proof.
  unfold rows_for. rewrite filter_app, length_app. simpl.
  destruct (matches roleId actionId p); reflexivity.
Qed.

Lemma rows_for_zero (ps : list Permission.t) (roleId actionId : string) :
  getPermission ps roleId actionId = None -> rows_for roleId actionId ps = 0%nat.
Proof.
  unfold rows_for, getPermission. induction ps as [|q ps IH]; simpl; [reflexivity|].
  destruct (matches roleId actionId q); [discriminate | exact IH].
Qed.

(** ** The container's steps *)

Lemma loadData_store (sf rf : bool) (st : App.t) :
  App.store (App.loadData sf rf st) = App.store st.
Proof. unfold App.loadData. destruct sf; reflexivity. Qed.

Lemma loadData_permissions (sf rf : bool) (st : App.t) :
  App.permissions (App.loadData sf rf st) =
  if sf then App.permissions st else Store.permissions (App.store st).
Proof. unfold App.loadData. destruct sf; reflexivity. Qed.

Lemma loadData_in_sync (rf : bool) (st : App.t) :
  in_sync (App.loadData false rf st).
Proof. unfold in_sync, App.loadData. simpl. repeat split. Qed.

Lemma loadData_catalog (sf rf : bool) (st : App.t) :
  catalog (App.loadData sf rf st) =
  if sf then catalog st
  else (Store.roles (App.store st), Store.actions (App.store st),
        Store.permissions (App.store st)).
Proof. unfold App.loadData, catalog. destruct sf; reflexivity. Qed.

(** An accepted write: which request it was and what the table holds
    afterwards. *)
Lemma write_accepted (env : Env) (roleId actionId : string) (s : Status)
  (st : App.t) (db : Store.t) :
  App.write env roleId actionId s st = Store.Data db ->
  write_fault env = false /\
  Store.roles db = Store.roles (App.store st) /\
  Store.actions db = Store.actions (App.store st) /\
  Store.profiles db = Store.profiles (App.store st) /\
  ((exists p,
      getPermission (App.permissions st) roleId actionId = Some p /\
      Store.permissions db =
        map (Store.patch_status (Permission.id p) s)
            (Store.permissions (App.store st)))
   \/
   (getPermission (App.permissions st) roleId actionId = None /\
    Store.has_id (new_id env) (Store.permissions (App.store st)) = false /\
    Store.has_pair roleId actionId (Store.permissions (App.store st)) = false /\
    Store.permissions db =
      Store.permissions (App.store st) ++
      [Permission.mk (new_id env) roleId actionId s None None])).
Proof.
  unfold App.write.
  destruct (getPermission (App.permissions st) roleId actionId) as [p|] eqn:Hget.
  - unfold Store.update_status. destruct (write_fault env); [discriminate|].
    intros H. injection H as <-. simpl. repeat split. left. exists p. split; reflexivity.
  - unfold Store.insert. destruct (write_fault env); [discriminate|].
    destruct (Store.has_id _ _) eqn:Hid; [discriminate|].
    destruct (negb (existsb _ (Store.roles _))); [discriminate|].
    destruct (negb (existsb _ (Store.actions _))); [discriminate|].
    destruct (Store.has_pair _ _ _) eqn:Hpair; [discriminate|].
    intros H. injection H as <-. simpl. repeat split. right. repeat split.
Qed.

(** The update request is accepted unless the request itself fails. *)
Lemma write_update (env : Env) (roleId actionId : string) (s : Status)
  (st : App.t) (p : Permission.t) :
  getPermission (App.permissions st) roleId actionId = Some p ->
  write_fault env = false ->
  App.write env roleId actionId s st =
  Store.Data (Store.set_permissions (App.store st)
                (map (Store.patch_status (Permission.id p) s)
                     (Store.permissions (App.store st)))).
Proof.
  intros Hget Hf. unfold App.write, Store.update_status. rewrite Hget, Hf.
  reflexivity.
Qed.

(** The insert request is accepted when no constraint of the table is
    violated and the request itself does not fail. *)
Lemma write_insert (env : Env) (roleId actionId : string) (s : Status)
  (st : App.t) :
  getPermission (App.permissions st) roleId actionId = None ->
  write_fault env = false ->
  Store.has_id (new_id env) (Store.permissions (App.store st)) = false ->
  existsb (fun r => String.eqb (Role.id r) roleId)
          (Store.roles (App.store st)) = true ->
  existsb (fun a => String.eqb (Action.id a) actionId)
          (Store.actions (App.store st)) = true ->
  Store.has_pair roleId actionId (Store.permissions (App.store st)) = false ->
  App.write env roleId actionId s st =
  Store.Data (Store.set_permissions (App.store st)
                (Store.permissions (App.store st) ++
                 [Permission.mk (new_id env) roleId actionId s None None])).
Proof.
  intros Hget Hf Hid Hr Ha Hp. unfold App.write, Store.insert.
  rewrite Hget, Hf, Hid, Hr, Ha, Hp. reflexivity.
Qed.

Lemma updatePermission_store (env : Env) (roleId actionId : string)
  (s : Status) (st : App.t) :
  App.store (App.updatePermission env roleId actionId s st) =
  match App.write env roleId actionId s st with
  | Store.Data db => db
  | Store.Error _ => App.store st
  end.
Proof.
  unfold App.updatePermission.
  destruct (App.write env roleId actionId s st); [|reflexivity].
  unfold App.toast. cbn [App.store]. rewrite loadData_store. reflexivity.
Qed.

Lemma updatePermission_permissions (env : Env) (roleId actionId : string)
  (s : Status) (st : App.t) :
  App.permissions (App.updatePermission env roleId actionId s st) =
  match App.write env roleId actionId s st with
  | Store.Data db =>
      if select_fault env then App.permissions st else Store.permissions db
  | Store.Error _ => App.permissions st
  end.
Proof.
  unfold App.updatePermission.
  destruct (App.write env roleId actionId s st); [|reflexivity].
  unfold App.toast. cbn [App.permissions]. rewrite loadData_permissions.
  reflexivity.
Qed.

(** One call keeps [UNIQUE(role_id, action_id)] in the table and in the
    list the component holds, whatever fails. *)
Lemma updatePermission_unique (env : Env) (roleId actionId : string)
  (s : Status) (st : App.t) :
  unique_pairs (Store.permissions (App.store st)) = true ->
  unique_pairs (App.permissions st) = true ->
  unique_pairs (Store.permissions
    (App.store (App.updatePermission env roleId actionId s st))) = true /\
  unique_pairs (App.permissions
    (App.updatePermission env roleId actionId s st)) = true.
Proof.
  intros Hdb Hlocal.
  rewrite updatePermission_store, updatePermission_permissions.
  destruct (App.write env roleId actionId s st) as [db|e] eqn:Hw;
    [|split; assumption].
  assert (Hnew : unique_pairs (Store.permissions db) = true).
  { destruct (write_accepted _ _ _ _ _ _ Hw)
      as (_ & _ & _ & _ & [(p & _ & ->) | (_ & _ & Hpair & ->)]).
    - rewrite unique_pairs_patch. exact Hdb.
    - apply unique_pairs_snoc; assumption. }
  split; [exact Hnew|]. destruct (select_fault env); assumption.
Qed.

Lemma rows_for_found (ps : list Permission.t) (roleId actionId : string)
  (p : Permission.t) :
  getPermission ps roleId actionId = Some p ->
  (1 <= rows_for roleId actionId ps)%nat.
Proof.
  unfold rows_for, getPermission. induction ps as [|q ps IH]; simpl; [discriminate|].
  destruct (matches roleId actionId q); simpl; [lia | exact IH].
Qed.

(** After an accepted write by a component in sync with the table, the
    table holds exactly one row for the pair and the pair resolves to a
    row with the status that was sent. *)
Lemma write_accepted_row (env : Env) (roleId actionId : string) (s : Status)
  (st : App.t) (db : Store.t) :
  unique_pairs (Store.permissions (App.store st)) = true ->
  App.permissions st = Store.permissions (App.store st) ->
  App.write env roleId actionId s st = Store.Data db ->
  rows_for roleId actionId (Store.permissions db) = 1%nat /\
  match getPermission (App.permissions st) roleId actionId with
  | Some p =>
      Store.permissions db =
        map (Store.patch_status (Permission.id p) s)
            (Store.permissions (App.store st)) /\
      length (Store.permissions db)
        = length (Store.permissions (App.store st)) /\
      getPermission (Store.permissions db) roleId actionId
        = Some (Permission.with_status p s)
  | None =>
      Store.permissions db =
        Store.permissions (App.store st) ++
        [Permission.mk (new_id env) roleId actionId s None None] /\
      length (Store.permissions db)
        = S (length (Store.permissions (App.store st))) /\
      getPermission (Store.permissions db) roleId actionId
        = Some (Permission.mk (new_id env) roleId actionId s None None)
  end.
Proof.
  intros Hu Hsync Hw.
  destruct (write_accepted _ _ _ _ _ _ Hw)
    as (_ & _ & _ & _ & [(p & Hget & Hdb) | (Hget & _ & _ & Hdb)]);
    rewrite Hget, Hdb; rewrite Hsync in Hget.
  - split; [|repeat split].
    + rewrite rows_for_patch.
      pose proof (rows_for_found _ _ _ _ Hget).
      pose proof (unique_pairs_rows_for _ roleId actionId Hu). lia.
    + apply length_map.
    + rewrite getPermission_patch, Hget. simpl.
      rewrite patch_status_own. reflexivity.
  - assert (Hm : matches roleId actionId
                   (Permission.mk (new_id env) roleId actionId s None None) = true)
      by (apply matches_true; split; reflexivity).
    split; [|repeat split].
    + rewrite rows_for_snoc, (rows_for_zero _ _ _ Hget), Hm. reflexivity.
    + rewrite length_app. simpl. lia.
    + rewrite getPermission_snoc, Hget, Hm. reflexivity.
Qed.

(** C2: starting from at most one row per pair, [updatePermission] keeps
    at most one row per pair, in the table and in the component, after
    one call and after a second call on the same pair, whatever fails.
    With the component in sync and the write request not failing, a pair
    that has a row gets that row updated in place: the table is the old
    one with the status of that row replaced, and after a second call it
    is the old one with the second status in that row.  A pair that has no
    row (the generated id being new, the role and the action existing)
    gets exactly one new row at the end of the table, and the second call
    updates that row and adds none. *)
Theorem updatePermission_keeps_one_row_per_pair
  (st : App.t) (env1 env2 : Env) (roleId actionId : string)
  (s1 s2 : Status) :
  unique_pairs (Store.permissions (App.store st)) = true ->
  unique_pairs (App.permissions st) = true ->
  let st1 := App.updatePermission env1 roleId actionId s1 st in
  let st2 := App.updatePermission env2 roleId actionId s2 st1 in
  (unique_pairs (Store.permissions (App.store st1)) = true /\
   unique_pairs (App.permissions st1) = true) /\
  (unique_pairs (Store.permissions (App.store st2)) = true /\
   unique_pairs (App.permissions st2) = true) /\
  (rows_for roleId actionId (Store.permissions (App.store st2)) <= 1)%nat /\
  (rows_for roleId actionId (App.permissions st2) <= 1)%nat /\
  (in_sync st -> write_fault env1 = false ->
   (forall p,
      getPermission (App.permissions st) roleId actionId = Some p ->
      (Store.permissions (App.store st1) =
         map (Store.patch_status (Permission.id p) s1)
             (Store.permissions (App.store st)) /\
       length (Store.permissions (App.store st1))
         = length (Store.permissions (App.store st)) /\
       rows_for roleId actionId (Store.permissions (App.store st1)) = 1%nat /\
       getPermission (Store.permissions (App.store st1)) roleId actionId
         = Some (Permission.with_status p s1)) /\
      (select_fault env1 = false -> write_fault env2 = false ->
       Store.permissions (App.store st2) =
         map (Store.patch_status (Permission.id p) s2)
             (Store.permissions (App.store st)) /\
       length (Store.permissions (App.store st2))
         = length (Store.permissions (App.store st)) /\
       rows_for roleId actionId (Store.permissions (App.store st2)) = 1%nat /\
       getPermission (Store.permissions (App.store st2)) roleId actionId
         = Some (Permission.with_status p s2))) /\
   (getPermission (App.permissions st) roleId actionId = None ->
    Store.has_id (new_id env1) (Store.permissions (App.store st)) = false ->
    existsb (fun r => String.eqb (Role.id r) roleId)
            (Store.roles (App.store st)) = true ->
    existsb (fun a => String.eqb (Action.id a) actionId)
            (Store.actions (App.store st)) = true ->
    (Store.permissions (App.store st1) =
       Store.permissions (App.store st) ++
       [Permission.mk (new_id env1) roleId actionId s1 None None] /\
     length (Store.permissions (App.store st1))
       = S (length (Store.permissions (App.store st))) /\
     rows_for roleId actionId (Store.permissions (App.store st1)) = 1%nat /\
     getPermission (Store.permissions (App.store st1)) roleId actionId
       = Some (Permission.mk (new_id env1) roleId actionId s1 None None)) /\
    (select_fault env1 = false -> write_fault env2 = false ->
     Store.permissions (App.store st2) =
       Store.permissions (App.store st) ++
       [Permission.mk (new_id env1) roleId actionId s2 None None] /\
     length (Store.permissions (App.store st2))
       = S (length (Store.permissions (App.store st))) /\
     rows_for roleId actionId (Store.permissions (App.store st2)) = 1%nat /\
     getPermission (Store.permissions (App.store st2)) roleId actionId
       = Some (Permission.mk (new_id env1) roleId actionId s2 None None)))).
Proof.
  intros Hdb Hlocal st1 st2.
  destruct (updatePermission_unique env1 roleId actionId s1 st Hdb Hlocal)
    as [Hdb1 Hlocal1].
  destruct (updatePermission_unique env2 roleId actionId s2 st1 Hdb1 Hlocal1)
    as [Hdb2 Hlocal2].
  split; [split; assumption|].
  split; [split; assumption|].
  split; [apply unique_pairs_rows_for; assumption|].
  split; [apply unique_pairs_rows_for; assumption|].
  intros (_ & _ & Hsync & _) Hwf1.
  (* The second call, whichever the first was: it finds the row [q] the
     first one left and updates it. *)
  assert (Hsecond : forall db1 q,
    App.write env1 roleId actionId s1 st = Store.Data db1 ->
    getPermission (Store.permissions db1) roleId actionId = Some q ->
    select_fault env1 = false -> write_fault env2 = false ->
    Store.permissions (App.store st2)
    = map (Store.patch_status (Permission.id q) s2) (Store.permissions db1)).
  { intros db1 q Hw1 Hq Hsf Hwf2.
    assert (Hst1 : App.store st1 = db1)
      by (unfold st1; rewrite updatePermission_store, Hw1; reflexivity).
    assert (Hp1 : App.permissions st1 = Store.permissions db1).
    { unfold st1. rewrite updatePermission_permissions, Hw1, Hsf. reflexivity. }
    assert (Hget1 : getPermission (App.permissions st1) roleId actionId = Some q)
      by (rewrite Hp1; exact Hq).
    unfold st2.
    rewrite updatePermission_store, (write_update env2 _ _ s2 st1 q Hget1 Hwf2).
    fold st1. rewrite Hst1. reflexivity. }
  split.
  - intros p Hget.
    pose proof (write_update env1 roleId actionId s1 st p Hget Hwf1) as Hw1.
    assert (Hst1 : Store.permissions (App.store st1) =
              map (Store.patch_status (Permission.id p) s1)
                  (Store.permissions (App.store st)))
      by (unfold st1; rewrite updatePermission_store, Hw1; reflexivity).
    assert (Hfound : getPermission (Store.permissions (App.store st)) roleId
                       actionId = Some p) by (rewrite <- Hsync; exact Hget).
    assert (Hone : forall s,
      rows_for roleId actionId
        (map (Store.patch_status (Permission.id p) s)
             (Store.permissions (App.store st))) = 1%nat /\
      getPermission (map (Store.patch_status (Permission.id p) s)
                         (Store.permissions (App.store st))) roleId actionId
      = Some (Permission.with_status p s)).
    { intros s. split.
      - rewrite rows_for_patch.
        pose proof (rows_for_found _ _ _ _ Hfound).
        pose proof (unique_pairs_rows_for _ roleId actionId Hdb). lia.
      - rewrite getPermission_patch, Hfound. simpl.
        rewrite patch_status_own. reflexivity. }
    split.
    + rewrite Hst1. split; [reflexivity|]. split; [apply length_map|].
      exact (Hone s1).
    + intros Hsf Hwf2.
      assert (Hst2 : Store.permissions (App.store st2) =
                map (Store.patch_status (Permission.id p) s2)
                    (Store.permissions (App.store st))).
      { rewrite (Hsecond _ (Permission.with_status p s1) Hw1
                   (proj2 (Hone s1)) Hsf Hwf2).
        simpl. apply map_patch_status_again. }
      rewrite Hst2. split; [reflexivity|]. split; [apply length_map|].
      exact (Hone s2).
  - intros Hget Hid Hrole Haction.
    assert (Hnone : getPermission (Store.permissions (App.store st)) roleId
                      actionId = None) by (rewrite <- Hsync; exact Hget).
    pose proof (write_insert env1 roleId actionId s1 st Hget Hwf1 Hid Hrole
                  Haction (proj2 (has_pair_getPermission _ _ _) Hnone)) as Hw1.
    assert (Hst1 : Store.permissions (App.store st1) =
              Store.permissions (App.store st) ++
              [Permission.mk (new_id env1) roleId actionId s1 None None])
      by (unfold st1; rewrite updatePermission_store, Hw1; reflexivity).
    assert (Hone : forall s,
      rows_for roleId actionId
        (Store.permissions (App.store st) ++
         [Permission.mk (new_id env1) roleId actionId s None None]) = 1%nat /\
      getPermission (Store.permissions (App.store st) ++
                     [Permission.mk (new_id env1) roleId actionId s None None])
                    roleId actionId
      = Some (Permission.mk (new_id env1) roleId actionId s None None)).
    { intros s.
      assert (Hm : matches roleId actionId
                (Permission.mk (new_id env1) roleId actionId s None None) = true)
        by (apply matches_true; split; reflexivity).
      split.
      - rewrite rows_for_snoc, (rows_for_zero _ _ _ Hnone), Hm. reflexivity.
      - rewrite getPermission_snoc, Hnone, Hm. reflexivity. }
    split.
    + rewrite Hst1. split; [reflexivity|].
      split; [rewrite length_app; simpl; lia|]. exact (Hone s1).
    + intros Hsf Hwf2.
      assert (Hst2 : Store.permissions (App.store st2) =
                Store.permissions (App.store st) ++
                [Permission.mk (new_id env1) roleId actionId s2 None None]).
      { rewrite (Hsecond _ (Permission.mk (new_id env1) roleId actionId s1
                              None None) Hw1 (proj2 (Hone s1)) Hsf Hwf2).
        simpl. rewrite map_app, (patch_status_absent _ _ _ Hid). simpl.
        unfold Store.patch_status. simpl. rewrite String.eqb_refl. reflexivity. }
      rewrite Hst2. split; [reflexivity|].
      split; [rewrite length_app; simpl; lia|]. exact (Hone s2).
Qed.

(** The sample catalog, nothing failing.  Twice on (Employee, Deploy
    Code), which has no row at first: one row is added, and it ends with
    the second status.  Twice on (Manager, Approve Expense Reports), which
    has a row: the row keeps its place, its limit and its id, and ends
    with the second status. *)
Lemma updatePermission_keeps_one_row_per_pair_witness :
  Store.permissions (App.store
    (App.updatePermission Sample.fine "role-employee" "act-deploy" conditional
       (App.updatePermission Sample.fine "role-employee" "act-deploy" granted
          Sample.app)))
  = [Sample.manager_approve; Sample.manager_reports;
     Permission.mk "perm-9" "role-employee" "act-deploy" conditional None None]
  /\
  Store.permissions (App.store
    (App.updatePermission Sample.fine "role-manager" "act-approve" conditional
       (App.updatePermission Sample.fine "role-manager" "act-approve" denied
          Sample.app)))
  = [Permission.mk "perm-1" "role-manager" "act-approve" conditional
                   (Some 10000%Z) None;
     Sample.manager_reports].
Proof.
  destruct (updatePermission_keeps_one_row_per_pair
              Sample.app Sample.fine Sample.fine "role-employee" "act-deploy"
              granted conditional eq_refl eq_refl)
    as (_ & _ & _ & _ & Hdeploy).
  destruct (Hdeploy (conj eq_refl (conj eq_refl (conj eq_refl eq_refl)))
                    eq_refl) as [_ Hinsert].
  destruct (Hinsert eq_refl eq_refl eq_refl eq_refl) as [_ Hinsert2].
  destruct (updatePermission_keeps_one_row_per_pair
              Sample.app Sample.fine Sample.fine "role-manager" "act-approve"
              denied conditional eq_refl eq_refl)
    as (_ & _ & _ & _ & Happrove).
  destruct (Happrove (conj eq_refl (conj eq_refl (conj eq_refl eq_refl)))
                     eq_refl) as [Hupdate _].
  destruct (Hupdate Sample.manager_approve eq_refl) as [_ Hupdate2].
  split.
  - exact (proj1 (Hinsert2 eq_refl eq_refl)).
  - exact (proj1 (Hupdate2 eq_refl eq_refl)).
Defined.

(** A reload that fails leaves the component behind the table: it still
    holds no row for (Employee, Deploy Code) and sends a second insert,
    which [UNIQUE(role_id, action_id)] rejects; the table keeps one row. *)
Lemma stale_second_insert_is_rejected :
  let st1 := App.updatePermission Sample.reload_fails
               "role-employee" "act-deploy" granted Sample.app in
  getPermission (App.permissions st1) "role-employee" "act-deploy" = None /\
  rows_for "role-employee" "act-deploy" (Store.permissions (App.store st1))
    = 1%nat /\
  App.write Sample.fine "role-employee" "act-deploy" granted st1
    = Store.Error Store.PrimaryKeyViolation /\
  App.write (mkEnv false "perm-10" false false)
            "role-employee" "act-deploy" granted st1
    = Store.Error Store.UniqueViolation /\
  rows_for "role-employee" "act-deploy"
    (Store.permissions (App.store
       (App.updatePermission (mkEnv false "perm-10" false false)
          "role-employee" "act-deploy" granted st1)))
    = 1%nat.
Proof. repeat split. Qed.

(** The PRIMARY KEY of the table survives every call as well. *)
Lemma updatePermission_unique_ids (env : Env) (roleId actionId : string)
  (s : Status) (st : App.t) :
  unique_ids (Store.permissions (App.store st)) = true ->
  unique_ids (Store.permissions
    (App.store (App.updatePermission env roleId actionId s st))) = true.
Proof.
  intros Hids. rewrite updatePermission_store.
  destruct (App.write env roleId actionId s st) as [db|e] eqn:Hw;
    [|exact Hids].
  destruct (write_accepted _ _ _ _ _ _ Hw)
    as (_ & _ & _ & _ & [(p & _ & ->) | (_ & Hid & _ & ->)]).
  - rewrite unique_ids_patch. exact Hids.
  - apply unique_ids_snoc; assumption.
Qed.

(** ** Update, not replace *)

(** No call, accepted or not, changes the limit or the conditions any
    pair resolves to in the table. *)
Lemma updatePermission_frame (env : Env) (roleId actionId : string)
  (s : Status) (st : App.t) (r a : string) :
  let ps' := Store.permissions
               (App.store (App.updatePermission env roleId actionId s st)) in
  res_limit_value (resolve ps' r a)
    = res_limit_value (resolve (Store.permissions (App.store st)) r a) /\
  res_conditions (resolve ps' r a)
    = res_conditions (resolve (Store.permissions (App.store st)) r a).
Proof.
  intros ps'. unfold ps'. clear ps'. rewrite updatePermission_store.
  destruct (App.write env roleId actionId s st) as [db|e] eqn:Hw;
    [|split; reflexivity].
  destruct (write_accepted _ _ _ _ _ _ Hw)
    as (_ & _ & _ & _ & [(p & _ & ->) | (_ & _ & _ & ->)]); unfold resolve.
  - rewrite getPermission_patch.
    destruct (getPermission (Store.permissions (App.store st)) r a) as [q|];
      simpl; [apply patch_status_limit | split; reflexivity].
  - rewrite getPermission_snoc.
    destruct (getPermission (Store.permissions (App.store st)) r a) as [q|];
      simpl; [split; reflexivity|].
    destruct (matches r a _); split; reflexivity.
Qed.

(** C5: for a pair that has a row, [updatePermission] sends the new
    status only: once the write is accepted and the reload has gone
    through, the pair resolves to the new status with the limit and the
    conditions the row had; and no call changes the limit or conditions of
    any pair in the table. *)
Theorem updatePermission_updates_status_only
  (st : App.t) (env : Env) (roleId actionId : string) (status : Status)
  (p : Permission.t) :
  in_sync st ->
  getPermission (App.permissions st) roleId actionId = Some p ->
  write_fault env = false ->
  select_fault env = false ->
  let st' := App.updatePermission env roleId actionId status st in
  resolve (App.permissions st) roleId actionId =
    mkResolved (Permission.status p) (Permission.limit_value p)
               (Permission.conditions p) /\
  getPermission (App.permissions st') roleId actionId =
    Some (Permission.with_status p status) /\
  resolve (App.permissions st') roleId actionId =
    mkResolved status (Permission.limit_value p) (Permission.conditions p) /\
  resolve (Store.permissions (App.store st')) roleId actionId =
    mkResolved status (Permission.limit_value p) (Permission.conditions p) /\
  length (App.permissions st') = length (App.permissions st) /\
  (forall r a,
     res_limit_value (resolve (App.permissions st') r a)
       = res_limit_value (resolve (App.permissions st) r a) /\
     res_conditions (resolve (App.permissions st') r a)
       = res_conditions (resolve (App.permissions st) r a)).
Proof.
  intros (_ & _ & Hsync & _) Hget Hwf Hsf st'.
  pose proof (write_update env roleId actionId status st p Hget Hwf) as Hw.
  assert (Hstore : Store.permissions (App.store st') =
                   map (Store.patch_status (Permission.id p) status)
                       (Store.permissions (App.store st)))
    by (unfold st'; rewrite updatePermission_store, Hw; reflexivity).
  assert (Hlocal : App.permissions st' = Store.permissions (App.store st'))
    by (unfold st'; rewrite updatePermission_permissions, updatePermission_store,
          Hw, Hsf; reflexivity).
  assert (Hget' : getPermission (App.permissions st') roleId actionId =
                  Some (Permission.with_status p status)).
  { rewrite Hlocal, Hstore, getPermission_patch, <- Hsync, Hget. simpl.
    rewrite patch_status_own. reflexivity. }
  split; [unfold resolve; rewrite Hget; reflexivity|].
  split; [exact Hget'|].
  split; [unfold resolve; rewrite Hget'; reflexivity|].
  split; [rewrite <- Hlocal; unfold resolve; rewrite Hget'; reflexivity|].
  split; [rewrite Hlocal, Hstore, length_map, Hsync; reflexivity|].
  intros r a. rewrite Hlocal, Hsync.
  apply (updatePermission_frame env roleId actionId status st r a).
Qed.

(** Manager, Approve Expense Reports, granted up to 10000: after
    [updatePermission] with 'conditional' the limit is still 10000. *)
Lemma updatePermission_updates_status_only_witness :
  resolve (App.permissions
             (App.updatePermission Sample.fine "role-manager" "act-approve"
                                   conditional Sample.app))
          "role-manager" "act-approve"
  = mkResolved conditional (Some 10000%Z) None.
Proof.
  refine (proj1 (proj2 (proj2
    (updatePermission_updates_status_only
       Sample.app Sample.fine "role-manager" "act-approve" conditional
       Sample.manager_approve _ eq_refl eq_refl eq_refl)))).
  unfold in_sync. repeat split.
Defined.

(** ** Rejected writes *)

(** C9: when the store rejects the write (the request fails, or the
    insert violates a constraint of the table) [updatePermission] stops:
    the table is as before, the component's roles, actions and
    permissions are as before, and the only effect is the failure notice.
    The catalog the component holds changes only when the write was
    accepted and the reload after it went through, and then it is what
    the table holds. *)
Theorem rejected_write_changes_nothing
  (st : App.t) (env : Env) (roleId actionId : string) (status : Status) :
  let st' := App.updatePermission env roleId actionId status st in
  (forall e,
     App.write env roleId actionId status st = Store.Error e ->
     st' = App.toast st App.updateFailed /\
     App.store st' = App.store st /\
     catalog st' = catalog st /\
     App.profiles st' = App.profiles st /\
     App.userRole st' = App.userRole st /\
     App.loading st' = App.loading st /\
     App.toasts st' = App.toasts st ++ [App.updateFailed] /\
     ~ In App.updateSucceeded [App.updateFailed] /\
     toast_destructive App.updateFailed = true) /\
  (write_fault env = true ->
   App.write env roleId actionId status st = Store.Error Store.Unavailable) /\
  (getPermission (App.permissions st) roleId actionId = None ->
   Store.has_pair roleId actionId (Store.permissions (App.store st)) = true ->
   exists e, App.write env roleId actionId status st = Store.Error e) /\
  (catalog st' <> catalog st ->
   exists db,
     App.write env roleId actionId status st = Store.Data db /\
     select_fault env = false /\
     App.store st' = db /\
     catalog st' = (Store.roles db, Store.actions db, Store.permissions db)).
Proof.
  intros st'. split; [|split; [|split]].
  - intros e He.
    assert (Hst : st' = App.toast st App.updateFailed)
      by (unfold st', App.updatePermission; rewrite He; reflexivity).
    rewrite Hst. repeat split.
    intros [Heq | []]. discriminate Heq.
  - intros Hf. unfold App.write, Store.update_status, Store.insert.
    rewrite Hf. destruct (getPermission _ _ _); reflexivity.
  - intros Hget Hpair. unfold App.write, Store.insert. rewrite Hget, Hpair.
    destruct (write_fault env); [eexists; reflexivity|].
    destruct (Store.has_id _ _); [eexists; reflexivity|].
    destruct (negb _); [eexists; reflexivity|].
    destruct (negb _); eexists; reflexivity.
  - intros Hchanged. unfold st' in *. unfold App.updatePermission in *.
    destruct (App.write env roleId actionId status st) as [db|e];
      [|exfalso; apply Hchanged; reflexivity].
    exists db. unfold App.toast, catalog in *. cbn [App.roles App.actions
      App.permissions App.store] in *.
    fold (catalog (App.loadData (select_fault env) (rpc_fault env)
                                (App.set_store st db))) in *.
    rewrite loadData_catalog, loadData_store in *.
    destruct (select_fault env);
      [exfalso; apply Hchanged; reflexivity | repeat split].
Qed.

(** The sample catalog with the write request rejected: nothing moves
    but the notices. *)
Lemma rejected_write_changes_nothing_witness :
  App.updatePermission Sample.rejected "role-manager" "act-approve"
                       conditional Sample.app
  = App.toast Sample.app App.updateFailed.
Proof.
  exact (proj1 (proj1
    (rejected_write_changes_nothing
       Sample.app Sample.rejected "role-manager" "act-approve" conditional)
    Store.Unavailable eq_refl)).
Defined.

(** ** Toggle cycle *)

Lemma existsb_role (role : Role.t) (rs : list Role.t) :
  In role rs -> existsb (fun r => String.eqb (Role.id r) (Role.id role)) rs = true.
Proof.
  intros Hin. apply existsb_exists. exists role.
  split; [exact Hin | apply String.eqb_refl].
Qed.

Lemma existsb_action (action : Action.t) (acts : list Action.t) :
  In action acts ->
  existsb (fun a => String.eqb (Action.id a) (Action.id action)) acts = true.
Proof.
  intros Hin. apply existsb_exists. exists action.
  split; [exact Hin | apply String.eqb_refl].
Qed.

(** One click whose write is accepted and whose reload goes through:
    the component is in sync again and the cell shows the next status. *)
Lemma toggle_advances (env : Env) (role : Role.t) (action : Action.t)
  (st : App.t) :
  in_sync st ->
  In role (App.roles st) -> In action (App.actions st) ->
  write_fault env = false -> select_fault env = false ->
  (getPermission (App.permissions st) (Role.id role) (Action.id action) = None ->
   Store.has_id (new_id env) (Store.permissions (App.store st)) = false) ->
  let st' := App.toggle env role action st in
  in_sync st' /\
  In role (App.roles st') /\ In action (App.actions st') /\
  (exists q, getPermission (App.permissions st') (Role.id role) (Action.id action)
             = Some q) /\
  res_status (resolve (App.permissions st') (Role.id role) (Action.id action))
  = nextStatus (res_status
      (resolve (App.permissions st) (Role.id role) (Action.id action))).
Proof.
  intros (Hroles & Hactions & Hperms & Hprofiles) Hrole Haction Hwf Hsf Hfresh st'.
  set (s := nextStatus (currentStatus
         (getPermission (App.permissions st) (Role.id role) (Action.id action)))).
  assert (Hst' : st' = App.updatePermission env (Role.id role) (Action.id action) s st)
    by reflexivity.
  assert (Hw : exists db,
             App.write env (Role.id role) (Action.id action) s st = Store.Data db /\
             Store.roles db = Store.roles (App.store st) /\
             Store.actions db = Store.actions (App.store st) /\
             exists q, getPermission (Store.permissions db)
                         (Role.id role) (Action.id action) = Some q /\
                       Permission.status q = s).
  { destruct (getPermission (App.permissions st) (Role.id role) (Action.id action))
      as [p|] eqn:Hget.
    - eexists. split; [apply (write_update env _ _ s st p Hget Hwf)|].
      simpl. repeat split. exists (Permission.with_status p s).
      rewrite getPermission_patch, <- Hperms, Hget. simpl.
      rewrite patch_status_own. split; reflexivity.
    - eexists. split.
      + apply (write_insert env _ _ s st Hget Hwf (Hfresh eq_refl)).
        * rewrite <- Hroles. apply existsb_role, Hrole.
        * rewrite <- Hactions. apply existsb_action, Haction.
        * apply has_pair_getPermission. rewrite <- Hperms. exact Hget.
      + simpl. repeat split. eexists.
        rewrite getPermission_snoc, <- Hperms, Hget.
        rewrite (proj2 (matches_true _ _ _)) by (split; reflexivity).
        split; reflexivity. }
  destruct Hw as (db & Hw & Hr & Ha & q & Hq & Hs).
  assert (Hform : st' = App.toast (App.loadData false (rpc_fault env)
                                     (App.set_store st db)) App.updateSucceeded).
  { rewrite Hst'. unfold App.updatePermission. rewrite Hw, Hsf. reflexivity. }
  rewrite Hform. unfold App.toast, App.loadData, in_sync.
  cbn [App.roles App.actions App.permissions App.profiles App.store
       App.setLoading App.setCatalog App.set_store].
  split; [repeat split|].
  split; [rewrite Hr, <- Hroles; exact Hrole|].
  split; [rewrite Ha, <- Hactions; exact Haction|].
  split; [exists q; exact Hq|].
  unfold resolve at 1. rewrite Hq. cbn [res_status currentStatus].
  rewrite Hs. reflexivity.
Qed.

(** A user whose role name opens no editing has no button to click. *)
Lemma view_only_click_changes_nothing (env : Env) (role : Role.t)
  (action : Action.t) (st : App.t) :
  canEdit (App.userRole st) = false -> App.click env role action st = st.
Proof.
  intros Hview. unfold App.click, View.hasToggle. simpl. rewrite Hview.
  reflexivity.
Qed.

Lemma editor_click_is_toggle (env : Env) (role : Role.t) (action : Action.t)
  (st : App.t) :
  canEdit (App.userRole st) = true ->
  App.click env role action st = App.toggle env role action st.
Proof.
  intros Hedit. unfold App.click, View.hasToggle. simpl. rewrite Hedit.
  reflexivity.
Qed.

(** C4: the toggle moves a cell along denied, granted, conditional and
    back to denied.  With every write accepted and every reload going
    through, each click shows the next status of the cycle, and a cell
    that shows denied, with or without a row behind it, shows denied again
    after three clicks. *)
Theorem toggle_cycle
  (st : App.t) (e1 e2 e3 : Env) (role : Role.t) (action : Action.t) :
  in_sync st ->
  In role (App.roles st) -> In action (App.actions st) ->
  (forall e, In e [e1; e2; e3] ->
     write_fault e = false /\ select_fault e = false) ->
  (getPermission (App.permissions st) (Role.id role) (Action.id action) = None ->
   Store.has_id (new_id e1) (Store.permissions (App.store st)) = false) ->
  let shown st := res_status
    (resolve (App.permissions st) (Role.id role) (Action.id action)) in
  let st1 := App.toggle e1 role action st in
  let st2 := App.toggle e2 role action st1 in
  let st3 := App.toggle e3 role action st2 in
  (nextStatus denied = granted /\ nextStatus granted = conditional /\
   nextStatus conditional = denied) /\
  (shown st1 = nextStatus (shown st) /\
   shown st2 = nextStatus (shown st1) /\
   shown st3 = nextStatus (shown st2)) /\
  shown st3 = shown st /\
  (shown st = denied ->
   shown st1 = granted /\ shown st2 = conditional /\ shown st3 = denied).
Proof.
  intros Hsync Hrole Haction Henv Hfresh shown st1 st2 st3.
  destruct (Henv e1) as [Hw1 Hs1]; [simpl; tauto|].
  destruct (Henv e2) as [Hw2 Hs2]; [simpl; tauto|].
  destruct (Henv e3) as [Hw3 Hs3]; [simpl; tauto|].
  destruct (toggle_advances e1 role action st Hsync Hrole Haction Hw1 Hs1 Hfresh)
    as (Hsync1 & Hrole1 & Haction1 & [q1 Hq1] & Hstep1).
  fold st1 in Hsync1, Hrole1, Haction1, Hq1, Hstep1.
  destruct (toggle_advances e2 role action st1 Hsync1 Hrole1 Haction1 Hw2 Hs2)
    as (Hsync2 & Hrole2 & Haction2 & [q2 Hq2] & Hstep2);
    [rewrite Hq1; discriminate|].
  fold st2 in Hsync2, Hrole2, Haction2, Hq2, Hstep2.
  destruct (toggle_advances e3 role action st2 Hsync2 Hrole2 Haction2 Hw3 Hs3)
    as (_ & _ & _ & _ & Hstep3);
    [rewrite Hq2; discriminate|].
  fold st3 in Hstep3.
  fold (shown st) in Hstep1. fold (shown st1) in Hstep1, Hstep2.
  fold (shown st2) in Hstep2, Hstep3. fold (shown st3) in Hstep3.
  split; [exact nextStatus_cycle|].
  split; [repeat split; assumption|].
  split.
  - rewrite Hstep3, Hstep2, Hstep1. apply nextStatus_thrice.
  - intros Hdenied. rewrite Hstep3, Hstep2, Hstep1, Hdenied. repeat split.
Qed.

(** The sample catalog, nothing failing: the cell of (Employee, Deploy
    Code), which has no row, after three clicks. *)
Lemma toggle_cycle_witness :
  res_status
    (resolve
       (App.permissions
          (App.toggle Sample.fine Sample.employee Sample.deploy
             (App.toggle Sample.fine Sample.employee Sample.deploy
                (App.toggle Sample.fine Sample.employee Sample.deploy
                   Sample.app))))
       "role-employee" "act-deploy")
  = denied.
Proof.
  refine (proj2 (proj2 (proj2 (proj2 (proj2
    (toggle_cycle Sample.app Sample.fine Sample.fine Sample.fine
       Sample.employee Sample.deploy _ _ _ _ _))) eq_refl))).
  - unfold in_sync. repeat split.
  - simpl. tauto.
  - simpl. tauto.
  - intros e He. simpl in He.
    destruct He as [<- | [<- | [<- | []]]]; split; reflexivity.
  - intros _. reflexivity.
Defined.

(** * Further properties of the code *)

(** ** Reloads, notices and repeated calls *)

(** After an accepted write of a component that was in sync, the table
    resolves the pair to the status that was sent. *)
Lemma write_accepted_status (env : Env) (roleId actionId : string) (s : Status)
  (st : App.t) (db : Store.t) :
  App.permissions st = Store.permissions (App.store st) ->
  App.write env roleId actionId s st = Store.Data db ->
  exists q,
    getPermission (Store.permissions db) roleId actionId = Some q /\
    Permission.status q = s.
Proof.
  intros Hsync Hw.
  destruct (write_accepted _ _ _ _ _ _ Hw)
    as (_ & _ & _ & _ & [(p & Hget & ->) | (Hget & _ & _ & ->)]);
    rewrite Hsync in Hget.
  - exists (Permission.with_status p s).
    rewrite getPermission_patch, Hget. simpl. rewrite patch_status_own.
    split; reflexivity.
  - eexists. rewrite getPermission_snoc, Hget.
    rewrite (proj2 (matches_true _ _ _)) by (split; reflexivity).
    split; reflexivity.
Qed.

(** X1: when the write is accepted but the reload after it fails, the
    user gets the load failure and then the success notice, the component
    keeps showing the old catalog while the table already resolves the
    pair to the new status; the next reload that goes through brings the
    component in sync and shows the new status. *)
Theorem accepted_write_failed_reload
  (st : App.t) (env : Env) (roleId actionId : string) (s : Status)
  (db : Store.t) (rpc : bool) :
  in_sync st ->
  App.write env roleId actionId s st = Store.Data db ->
  select_fault env = true ->
  let st1 := App.updatePermission env roleId actionId s st in
  let st2 := App.loadData false rpc st1 in
  App.toasts st1 = App.toasts st ++ [App.loadFailed; App.updateSucceeded] /\
  App.store st1 = db /\
  catalog st1 = catalog st /\
  resolve (App.permissions st1) roleId actionId
    = resolve (App.permissions st) roleId actionId /\
  res_status (resolve (Store.permissions (App.store st1)) roleId actionId) = s /\
  App.loading st1 = false /\
  in_sync st2 /\
  res_status (resolve (App.permissions st2) roleId actionId) = s /\
  App.toasts st2 = App.toasts st1.
Proof.
  intros (_ & _ & Hsync & _) Hw Hsf st1 st2.
  assert (Hform : st1 = App.toast (App.loadData true (rpc_fault env)
                                     (App.set_store st db)) App.updateSucceeded).
  { unfold st1, App.updatePermission. rewrite Hw, Hsf. reflexivity. }
  destruct (write_accepted_status _ _ _ _ _ _ Hsync Hw) as (q & Hq & Hs).
  assert (Hstore : App.store st1 = db) by (rewrite Hform; reflexivity).
  assert (Hperms : App.permissions st1 = App.permissions st)
    by (rewrite Hform; reflexivity).
  split; [rewrite Hform; simpl; rewrite <- app_assoc; reflexivity|].
  split; [exact Hstore|].
  split; [rewrite Hform; reflexivity|].
  split; [rewrite Hperms; reflexivity|].
  split; [rewrite Hstore; unfold resolve; rewrite Hq; exact Hs|].
  split; [rewrite Hform; reflexivity|].
  split; [apply loadData_in_sync|].
  split.
  - unfold st2. rewrite loadData_permissions, Hstore.
    unfold resolve. rewrite Hq. exact Hs.
  - reflexivity.
Qed.

(** The sample catalog: Manager's expense approval set to conditional
    while the reload fails. *)
Lemma accepted_write_failed_reload_witness :
  App.toasts (App.updatePermission Sample.reload_fails
                "role-manager" "act-approve" conditional Sample.app)
  = [App.loadFailed; App.updateSucceeded].
Proof.
  refine (proj1 (accepted_write_failed_reload
                   Sample.app Sample.reload_fails "role-manager" "act-approve"
                   conditional _ false _ eq_refl eq_refl)).
  unfold in_sync. repeat split.
Defined.

Lemma with_status_same (p : Permission.t) :
  Permission.with_status p (Permission.status p) = p.
Proof. destruct p; reflexivity. Qed.

Lemma patch_status_twice (id : string) (s : Status) (p : Permission.t) :
  Store.patch_status id s (Store.patch_status id s p) = Store.patch_status id s p.
Proof.
  unfold Store.patch_status.
  destruct (String.eqb (Permission.id p) id) eqn:Hid; [|rewrite Hid; reflexivity].
  simpl. rewrite Hid. reflexivity.
Qed.

(** X2: repeating a call is harmless.  After an accepted call whose
    reload went through, the same call again (same pair, same status)
    leaves the table exactly as it is: the row is updated to the status it
    already has, and no second row is inserted. *)
Theorem updatePermission_repeat_changes_nothing
  (st : App.t) (env1 env2 : Env) (roleId actionId : string) (s : Status)
  (db1 : Store.t) :
  in_sync st ->
  App.write env1 roleId actionId s st = Store.Data db1 ->
  select_fault env1 = false ->
  write_fault env2 = false ->
  let st1 := App.updatePermission env1 roleId actionId s st in
  let st2 := App.updatePermission env2 roleId actionId s st1 in
  App.store st1 = db1 /\
  App.store st2 = App.store st1 /\
  (select_fault env2 = false -> catalog st2 = catalog st1) /\
  App.toasts st2 = App.toasts st ++ [App.updateSucceeded] ++
    (if select_fault env2 then [App.loadFailed; App.updateSucceeded]
     else [App.updateSucceeded]).
Proof.
  intros (_ & _ & Hsync & _) Hw1 Hsf1 Hwf2 st1 st2.
  assert (Hform1 : st1 = App.toast (App.loadData false (rpc_fault env1)
                                      (App.set_store st db1)) App.updateSucceeded).
  { unfold st1, App.updatePermission. rewrite Hw1, Hsf1. reflexivity. }
  assert (Hstore1 : App.store st1 = db1) by (rewrite Hform1; reflexivity).
  assert (Hperms1 : App.permissions st1 = Store.permissions db1)
    by (rewrite Hform1; reflexivity).
  assert (Hfix : exists q,
             getPermission (App.permissions st1) roleId actionId = Some q /\
             map (Store.patch_status (Permission.id q) s) (Store.permissions db1)
             = Store.permissions db1).
  { rewrite Hperms1.
    destruct (write_accepted _ _ _ _ _ _ Hw1)
      as (_ & _ & _ & _ & [(p & Hget & Hdb) | (Hget & Hid & _ & Hdb)]);
      rewrite Hsync in Hget; rewrite Hdb.
    - exists (Permission.with_status p s). split.
      + rewrite getPermission_patch, Hget. simpl. rewrite patch_status_own.
        reflexivity.
      + simpl. rewrite map_map. apply map_ext. intros x.
        apply patch_status_twice.
    - eexists. split.
      + rewrite getPermission_snoc, Hget.
        rewrite (proj2 (matches_true _ _ _)) by (split; reflexivity).
        reflexivity.
      + simpl. rewrite map_app, (patch_status_absent _ _ _ Hid). simpl.
        unfold Store.patch_status. simpl. rewrite String.eqb_refl. reflexivity. }
  destruct Hfix as (q & Hq & Hmap).
  assert (Hw2 : App.write env2 roleId actionId s st1 = Store.Data db1).
  { rewrite (write_update env2 roleId actionId s st1 q Hq Hwf2).
    rewrite Hstore1, Hmap. destruct db1; reflexivity. }
  assert (Hform2 : st2 = App.toast (App.loadData (select_fault env2) (rpc_fault env2)
                                      (App.set_store st1 db1)) App.updateSucceeded).
  { unfold st2, App.updatePermission. rewrite Hw2. reflexivity. }
  split; [exact Hstore1|].
  split; [rewrite Hform2, Hstore1; unfold App.toast; cbn [App.store];
          rewrite loadData_store; reflexivity|].
  split.
  - intros Hsf2. rewrite Hform2, Hsf2, Hform1. reflexivity.
  - rewrite Hform2, Hform1. destruct (select_fault env2); simpl;
      rewrite <- !app_assoc; reflexivity.
Qed.

(** The sample catalog: (Employee, Deploy Code) granted twice, the first
    call inserting the row. *)
Lemma updatePermission_repeat_changes_nothing_witness :
  App.store
    (App.updatePermission Sample.fine "role-employee" "act-deploy" granted
       (App.updatePermission Sample.fine "role-employee" "act-deploy" granted
          Sample.app))
  = App.store
      (App.updatePermission Sample.fine "role-employee" "act-deploy" granted
         Sample.app).
Proof.
  refine (proj1 (proj2 (updatePermission_repeat_changes_nothing
                   Sample.app Sample.fine Sample.fine
                   "role-employee" "act-deploy" granted _ _ eq_refl eq_refl
                   eq_refl))).
  unfold in_sync. repeat split.
Defined.

Lemma unique_ids_same_id (ps : list Permission.t) (p q : Permission.t) :
  unique_ids ps = true -> In p ps -> In q ps ->
  Permission.id p = Permission.id q -> p = q.
Proof.
  induction ps as [|x ps IH]; simpl; [tauto|].
  intros Hu Hp Hq Hid. apply andb_true_iff in Hu. destruct Hu as [Hx Hu].
  apply negb_true_iff in Hx.
  assert (Hfresh : forall y, In y ps -> Permission.id y <> Permission.id x).
  { intros y Hy Heq. unfold Store.has_id in Hx.
    assert (Hex : existsb (fun p0 => String.eqb (Permission.id p0)
                                       (Permission.id x)) ps = true).
    { apply existsb_exists. exists y. split; [exact Hy|].
      apply String.eqb_eq. exact Heq. }
    congruence. }
  destruct Hp as [<- | Hp]; destruct Hq as [<- | Hq].
  - reflexivity.
  - exfalso. apply (Hfresh q Hq). congruence.
  - exfalso. apply (Hfresh p Hp). congruence.
  - apply IH; assumption.
Qed.

(** X3: a call touches one pair only.  With distinct row ids in the
    table and the component in sync, [updatePermission] on a pair leaves
    what every other pair resolves to in the table (status, limit and
    conditions) as it was, whatever the outcome of the call. *)
Theorem updatePermission_leaves_other_pairs
  (st : App.t) (env : Env) (roleId actionId : string) (s : Status)
  (r a : string) :
  in_sync st ->
  unique_ids (Store.permissions (App.store st)) = true ->
  r <> roleId \/ a <> actionId ->
  resolve (Store.permissions
             (App.store (App.updatePermission env roleId actionId s st))) r a
  = resolve (Store.permissions (App.store st)) r a.
Proof.
  intros (_ & _ & Hsync & _) Hids Hother.
  rewrite updatePermission_store.
  destruct (App.write env roleId actionId s st) as [db|e] eqn:Hw;
    [|reflexivity].
  destruct (write_accepted _ _ _ _ _ _ Hw)
    as (_ & _ & _ & _ & [(p & Hget & ->) | (_ & _ & _ & ->)]); unfold resolve.
  - rewrite getPermission_patch.
    destruct (getPermission (Store.permissions (App.store st)) r a)
      as [q|] eqn:Hq; [|reflexivity].
    simpl.
    assert (Hsame : Store.patch_status (Permission.id p) s q = q).
    { unfold Store.patch_status.
      destruct (String.eqb_spec (Permission.id q) (Permission.id p)) as [Hid|];
        [|reflexivity].
      exfalso. rewrite Hsync in Hget.
      destruct (getPermission_some _ _ _ _ Hget) as (Hp & Hpr & Hpa).
      destruct (getPermission_some _ _ _ _ Hq) as (Hq' & Hqr & Hqa).
      assert (q = p) by (apply (unique_ids_same_id _ q p Hids Hq' Hp Hid)).
      subst q. destruct Hother as [H | H]; apply H; congruence. }
    rewrite Hsame. reflexivity.
  - rewrite getPermission_snoc.
    destruct (getPermission (Store.permissions (App.store st)) r a);
      [reflexivity|].
    assert (Hm : matches r a (Permission.mk (new_id env) roleId actionId s
                                None None) = false).
    { apply matches_false. simpl. intros [Hr Ha].
      destruct Hother as [H | H]; apply H; congruence. }
    rewrite Hm. reflexivity.
Qed.

(** The sample catalog: toggling Manager's expense approval leaves
    Manager's financial reports cell alone. *)
Lemma updatePermission_leaves_other_pairs_witness :
  resolve (Store.permissions
             (App.store (App.updatePermission Sample.fine
                           "role-manager" "act-approve" denied Sample.app)))
          "role-manager" "act-reports"
  = mkResolved conditional None (Some "Department level only").
Proof.
  refine (eq_trans
            (updatePermission_leaves_other_pairs
               Sample.app Sample.fine "role-manager" "act-approve" denied
               "role-manager" "act-reports" _ eq_refl _) eq_refl).
  - unfold in_sync. repeat split.
  - right. discriminate.
Defined.

(** ** Categories and filters *)

Lemma existsb_eqb_In (x : string) (seen : list string) :
  existsb (String.eqb x) seen = true <-> In x seen.
Proof.
  rewrite existsb_exists. split.
  - intros (y & Hy & Heq). apply String.eqb_eq in Heq. congruence.
  - intros Hin. exists x. split; [exact Hin | apply String.eqb_refl].
Qed.

Lemma set_values_In (seen xs : list string) (c : string) :
  In c (set_values seen xs) <-> In c xs /\ ~ In c seen.
Proof.
  revert seen. induction xs as [|x xs IH]; intros seen; simpl; [tauto|].
  destruct (existsb (String.eqb x) seen) eqn:Hx.
  - apply existsb_eqb_In in Hx. rewrite IH. split.
    + intros [Hin Hseen]. tauto.
    + intros [[-> | Hin] Hseen]; [contradiction | tauto].
  - assert (Hnx : ~ In x seen)
      by (intros H; apply existsb_eqb_In in H; congruence).
    simpl. rewrite IH. simpl. split.
    + intros [<- | [Hin Hseen]].
      * split; [left; reflexivity | exact Hnx].
      * split; [right; exact Hin | intros H; apply Hseen; right; exact H].
    + intros [[-> | Hin] Hseen]; [left; reflexivity|].
      destruct (String.eqb_spec x c) as [-> | Hne]; [left; reflexivity|].
      right. split; [exact Hin | intros [H | H]; [exact (Hne H) | exact (Hseen H)]].
Qed.

Lemma set_values_NoDup (seen xs : list string) : NoDup (set_values seen xs).
Proof.
  revert seen. induction xs as [|x xs IH]; intros seen; simpl; [constructor|].
  destruct (existsb (String.eqb x) seen); [apply IH|].
  constructor; [|apply IH].
  rewrite set_values_In. simpl. tauto.
Qed.

Lemma includes_empty (s : string) : includes s "" = true.
Proof. destruct s; reflexivity. Qed.

Lemma matchesSearch_empty (L : CaseMap) (v : View.t) (action : Action.t) :
  View.searchTerm v = "" -> View.matchesSearch L v action = true.
Proof.
  intros Hterm. unfold View.matchesSearch.
  rewrite Hterm, toLowerCase_empty, includes_empty. reflexivity.
Qed.

(** X4: the category list has every category of the catalog exactly once
    and nothing else; choosing one of them other than "all", with an empty
    search, shows exactly the actions of that category, and at least one.
    The options of the select (the fixed "all" followed by the categories)
    are distinct exactly when no action has the category "all". *)
Theorem categories_distinct_and_selecting (L : CaseMap) (v : View.t) :
  NoDup (Matrix.categories v) /\
  (forall c, In c (Matrix.categories v) <->
             exists action, In action (View.actions v) /\
                            Action.category action = c) /\
  (forall c, In c (Matrix.categories v) -> c <> "all" ->
     let v' := View.mk (View.roles v) (View.actions v) (View.permissions v)
                       (View.userRole v) c "" in
     View.filteredActions L v' =
       filter (fun action => String.eqb (Action.category action) c)
              (View.actions v) /\
     View.filteredActions L v' <> []) /\
  (NoDup (Matrix.categoryOptions v) <->
   forall action, In action (View.actions v) ->
                  Action.category action <> "all").
Proof.
  assert (Hin : forall c, In c (Matrix.categories v) <->
             exists action, In action (View.actions v) /\
                            Action.category action = c).
  { intros c. unfold Matrix.categories, array_from_set.
    rewrite set_values_In, in_map_iff. simpl. split.
    - intros [(action & Hcat & Haction) _]. exists action. tauto.
    - intros (action & Haction & Hcat). split; [exists action; tauto | tauto]. }
  split; [apply set_values_NoDup|]. split; [exact Hin|]. split.
  - intros c Hc Hall v'.
    assert (Hfilter : View.filteredActions L v' =
              filter (fun action => String.eqb (Action.category action) c)
                     (View.actions v)).
    { unfold View.filteredActions. simpl. apply filter_ext. intros action.
      rewrite (matchesSearch_empty L v' action eq_refl), andb_true_r.
      unfold View.matchesCategory. simpl.
      destruct (String.eqb_spec c "all"); [contradiction | reflexivity]. }
    split; [exact Hfilter|].
    apply Hin in Hc. destruct Hc as (action & Haction & Hcat).
    rewrite Hfilter. intros Hnil.
    assert (Hmem : In action (filter (fun action0 =>
                      String.eqb (Action.category action0) c) (View.actions v))).
    { apply filter_In. split; [exact Haction | apply String.eqb_eq, Hcat]. }
    rewrite Hnil in Hmem. exact Hmem.
  - unfold Matrix.categoryOptions. split.
    + intros Hnd action Haction Hcat. inversion Hnd as [|x l Hnotin _]; subst.
      apply Hnotin, Hin. exists action. tauto.
    + intros Hnone. constructor; [|apply set_values_NoDup].
      intros Hall. apply Hin in Hall. destruct Hall as (action & Haction & Hcat).
      exact (Hnone action Haction Hcat).
Qed.

(** The sample catalog has the categories Financial and System; choosing
    System shows the one System action. *)
Lemma categories_distinct_and_selecting_witness :
  View.filteredActions ascii_case
    (View.mk Sample.roles Sample.actions Sample.permissions "Edit & View"
             "System" "")
  = [Sample.deploy].
Proof.
  refine (eq_trans
    (proj1 (proj1 (proj2 (proj2
       (categories_distinct_and_selecting ascii_case
          (Sample.view "all" "budget"))))
       "System" _ _)) eq_refl).
  - simpl. tauto.
  - discriminate.
Defined.

(** X5: with the initial filter state (category "all", empty search)
    the matrix shows every action of the catalog in catalog order,
    actions without description included; with an empty search the
    category alone decides. *)
Theorem unfiltered_view_shows_everything (L : CaseMap)
  (roles : list Role.t) (actions : list Action.t)
  (permissions : list Permission.t) (userRole selectedCategory : string) :
  View.filteredActions L
    (View.mk roles actions permissions userRole "all" "") = actions /\
  map fst (Matrix.body L (View.mk roles actions permissions userRole "all" ""))
    = actions /\
  View.filteredActions L
    (View.mk roles actions permissions userRole selectedCategory "")
  = filter (View.matchesCategory
              (View.mk roles actions permissions userRole selectedCategory ""))
           actions.
Proof.
  assert (Hcat : forall sel,
    View.filteredActions L (View.mk roles actions permissions userRole sel "")
    = filter (View.matchesCategory
                (View.mk roles actions permissions userRole sel "")) actions).
  { intros sel. unfold View.filteredActions. simpl. apply filter_ext.
    intros action. rewrite matchesSearch_empty by reflexivity.
    apply andb_true_r. }
  assert (Hall : View.filteredActions L
            (View.mk roles actions permissions userRole "all" "") = actions).
  { rewrite Hcat. clear. induction actions as [|a l IH]; simpl; [reflexivity|].
    f_equal. exact IH. }
  split; [exact Hall|]. split; [|apply Hcat].
  unfold Matrix.body. rewrite map_map. simpl.
  rewrite map_id. exact Hall.
Qed.

(** ** The older filter and its null descriptions *)

Lemma legacy_matchesSearch_none (L : CaseMap) (v : View.t)
  (action : Action.t) :
  Legacy.matchesSearch L v action = None <->
  Action.description action = None /\
  includes (toLowerCase L (Action.name action))
           (toLowerCase L (View.searchTerm v)) = false.
Proof.
  unfold Legacy.matchesSearch.
  destruct (includes (toLowerCase L (Action.name action))
                     (toLowerCase L (View.searchTerm v)));
    destruct (Action.description action) as [d|].
  - split; [discriminate | intros [H _]; discriminate H].
  - split; [discriminate | intros [_ H]; discriminate H].
  - split; [discriminate | intros [H _]; discriminate H].
  - split; [intros _; split; reflexivity | reflexivity].
Qed.

Lemma legacy_matchesSearch_some (L : CaseMap) (v : View.t)
  (action : Action.t) (b : bool) :
  Legacy.matchesSearch L v action = Some b -> View.matchesSearch L v action = b.
Proof.
  unfold Legacy.matchesSearch, View.matchesSearch.
  destruct (includes (toLowerCase L (Action.name action))
                     (toLowerCase L (View.searchTerm v)));
    destruct (Action.description action); simpl; congruence.
Qed.

Lemma legacy_filter_actions (L : CaseMap) (v : View.t)
  (actions : list Action.t) :
  match Legacy.filter_actions L v actions with
  | Some kept =>
      kept = filter (fun action => View.matchesCategory v action &&
                                   View.matchesSearch L v action) actions /\
      forall action, In action actions ->
                     Legacy.matchesSearch L v action <> None
  | None =>
      exists action, In action actions /\
                     Legacy.matchesSearch L v action = None
  end.
Proof.
  induction actions as [|a rest IH]; simpl; [split; [reflexivity | tauto]|].
  destruct (Legacy.matchesSearch L v a) as [b|] eqn:Ha.
  - destruct (Legacy.filter_actions L v rest) as [kept|].
    + destruct IH as [-> Hrest].
      rewrite (legacy_matchesSearch_some L v a b Ha). split; [reflexivity|].
      intros action [<- | Hin]; [congruence | apply Hrest, Hin].
    + destruct IH as (action & Hin & Hnone). exists action. tauto.
  - exists a. tauto.
Qed.

(** X6: the older matrix reads [action.description] without [?.].  Its
    filter throws exactly when some action has no description and a name
    whose lower-casing does not contain the lower-cased search term;
    whenever it does not throw it keeps the same actions as the current
    view.  So it never throws on an empty search, nor on a catalog whose
    descriptions are all set. *)
Theorem legacy_filter_throws_on_null_description (L : CaseMap) (v : View.t) :
  (Legacy.filteredActions L v = None <->
   exists action,
     In action (View.actions v) /\
     Action.description action = None /\
     includes (toLowerCase L (Action.name action))
              (toLowerCase L (View.searchTerm v)) = false) /\
  (forall kept, Legacy.filteredActions L v = Some kept ->
                kept = View.filteredActions L v) /\
  (View.searchTerm v = "" ->
   Legacy.filteredActions L v = Some (View.filteredActions L v)) /\
  ((forall action, In action (View.actions v) ->
                   Action.description action <> None) ->
   Legacy.filteredActions L v = Some (View.filteredActions L v)).
Proof.
  pose proof (legacy_filter_actions L v (View.actions v)) as Hspec.
  unfold Legacy.filteredActions, View.filteredActions.
  destruct (Legacy.filter_actions L v (View.actions v)) as [kept|].
  - destruct Hspec as [-> Hok]. split; [|split; [|split]].
    + split; [discriminate|]. intros (action & Hin & Hnone).
      exfalso. apply (Hok action Hin). apply legacy_matchesSearch_none.
      exact Hnone.
    + intros kept' H. congruence.
    + reflexivity.
    + reflexivity.
  - destruct Hspec as (action & Hin & Hnone).
    apply legacy_matchesSearch_none in Hnone. destruct Hnone as [Hdesc Hname].
    split; [|split; [|split]].
    + split; [intros _; exists action; tauto | reflexivity].
    + discriminate.
    + intros Hterm. exfalso.
      rewrite Hterm, toLowerCase_empty, includes_empty in Hname.
      discriminate Hname.
    + intros Hall. exfalso. exact (Hall action Hin Hdesc).
Qed.

(** The sample catalog has an action without description, Deploy Code:
    searching "budget" throws in the older matrix, an empty search does
    not. *)
Lemma legacy_filter_throws_on_null_description_witness :
  Legacy.filteredActions ascii_case (Sample2.legacy_view "budget") = None /\
  Legacy.filteredActions ascii_case (Sample2.legacy_view "")
  = Some Sample.actions.
Proof.
  split.
  - apply (proj2 (proj1 (legacy_filter_throws_on_null_description ascii_case
                           (Sample2.legacy_view "budget")))).
    exists Sample.deploy. split; [simpl; tauto|]. split; reflexivity.
  - exact (proj1 (proj2 (proj2 (legacy_filter_throws_on_null_description
                                  ascii_case (Sample2.legacy_view ""))))
                 eq_refl).
Defined.

(** ** What the cell shows and what the export writes *)

(** X7: the badge of a cell and the Status field of the export row of
    the same pair agree: the field is the badge's label in lower case.
    The badge reads Denied exactly when the pair resolves to denied, and
    its variant is "secondary" exactly when the pair has no row. *)
Theorem badge_agrees_with_export
  (v : View.t) (role : Role.t) (action : Action.t) :
  let badge := cell_badge (Matrix.cell v role action) in
  nth 2 (View.exportRow v role action) (FStr "")
    = FStr (ascii_toLowerCase (badge_label badge)) /\
  (badge_label badge = "Denied" <->
   res_status (resolve (View.permissions v) (Role.id role) (Action.id action))
     = denied) /\
  (badge_variant badge = "secondary" <->
   getPermission (View.permissions v) (Role.id role) (Action.id action) = None) /\
  cell_button (Matrix.cell v role action) = canEdit (View.userRole v).
Proof.
  unfold Matrix.cell, View.exportRow, resolve, Matrix.getStatusBadge. simpl.
  destruct (getPermission (View.permissions v) (Role.id role) (Action.id action))
    as [p|]; simpl.
  - destruct (Permission.status p); simpl;
      (split; [reflexivity|]); (split; [split; congruence|]);
      (split; [split; discriminate | reflexivity]).
  - split; [reflexivity|]. split; [tauto|]. split; [tauto | reflexivity].
Qed.

Lemma limit_prefix_inj (x s : string) :
  ("Limit: " ++ x)%string = ("Limit: " ++ s)%string -> x = s.
Proof. simpl. intros H. injection H as H. exact H. Qed.

(** X8: the limit line of a cell and the Limit field of the export
    agree except on zero: the cell has a "Limit: n" line exactly when the
    export has the number n in its Limit field; a limit of zero gives a
    bare 0 in the cell and an empty field in the export.  The conditions
    line is shown exactly when the Conditions field is not empty, with
    the same text. *)
Theorem cell_agrees_with_export_except_zero
  (v : View.t) (role : Role.t) (action : Action.t) :
  let c := Matrix.cell v role action in
  let row := View.exportRow v role action in
  let r := resolve (View.permissions v) (Role.id role) (Action.id action) in
  (forall s, cell_limit c = Some ("Limit: " ++ s)%string <->
             exists n, nth 3 row (FStr "") = FNum n /\
                       s = field_string (FNum n)) /\
  (res_limit_value r = Some 0%Z ->
   cell_limit c = Some "0" /\ nth 3 row (FStr "") = FStr "") /\
  (res_limit_value r = None ->
   cell_limit c = None /\ nth 3 row (FStr "") = FStr "") /\
  (cell_conditions c = None <-> nth 4 row (FNum 0) = FStr "") /\
  (forall t, cell_conditions c = Some t -> nth 4 row (FNum 0) = FStr t).
Proof.
  unfold Matrix.cell, View.exportRow, resolve, Matrix.limitLine,
    Matrix.conditionsLine. simpl.
  destruct (getPermission (View.permissions v) (Role.id role) (Action.id action))
    as [p|]; simpl.
  - split; [|split; [|split; [|split]]].
    + intros s. destruct (Permission.limit_value p) as [n|]; simpl.
      * destruct (Z.eqb_spec n 0) as [-> | Hn]; simpl.
        -- split; [discriminate | intros (m & H & _); discriminate H].
        -- split.
           ++ intros H. injection H as H. exists n. split; [reflexivity|].
              symmetry. exact H.
           ++ intros (m & H & ->). injection H as <-. reflexivity.
      * split; [discriminate | intros (m & H & _); discriminate H].
    + intros ->. split; reflexivity.
    + intros ->. split; reflexivity.
    + destruct (Permission.conditions p) as [t|]; simpl; [|tauto].
      destruct (String.eqb_spec t "") as [-> | Ht]; [tauto|].
      split; [discriminate | intros H; injection H as H; contradiction].
    + intros t. destruct (Permission.conditions p) as [t'|]; simpl;
        [|discriminate].
      destruct (String.eqb_spec t' ""); [discriminate|]. congruence.
  - split; [|split; [|split; [|split]]].
    + intros s. split; [discriminate | intros (m & H & _); discriminate H].
    + discriminate.
    + intros _. split; reflexivity.
    + tauto.
    + discriminate.
Qed.

(** The permission with the limit of zero: a bare 0 in the cell, nothing
    in the export. *)
Lemma cell_agrees_with_export_except_zero_witness :
  cell_limit (Matrix.cell Sample.zero_view Sample.employee Sample.approve)
    = Some "0" /\
  nth 3 (View.exportRow Sample.zero_view Sample.employee Sample.approve)
        (FStr "") = FStr "".
Proof.
  exact (proj1 (proj2 (cell_agrees_with_export_except_zero
                         Sample.zero_view Sample.employee Sample.approve))
               eq_refl).
Defined.

(** ** From the profile to the gate *)

Lemma get_user_role_some (db : Store.t) (user : option string) (n : string) :
  Store.get_user_role db user = Some n ->
  exists uid p r,
    user = Some uid /\
    In p (Store.profiles db) /\ Profile.user_id p = uid /\
    In r (Store.roles db) /\ Profile.role_id p = Some (Role.id r) /\
    Role.name r = n.
Proof.
  unfold Store.get_user_role. destruct user as [uid|]; [|discriminate].
  destruct (find _ (Store.profiles db)) as [p|] eqn:Hp; [|discriminate].
  destruct (Profile.role_id p) as [rid|] eqn:Hrid; [|discriminate].
  destruct (find _ (Store.roles db)) as [r|] eqn:Hr; [|discriminate].
  intros H. injection H as <-.
  apply find_some in Hp. destruct Hp as [Hpin Hpu]. apply String.eqb_eq in Hpu.
  apply find_some in Hr. destruct Hr as [Hrin Hrid']. apply String.eqb_eq in Hrid'.
  exists uid, p, r. repeat split; try assumption. congruence.
Qed.

(** X9: editing is open after a load only to a user whose profile is
    assigned a role of the roles table named exactly "Admin" or
    "Edit & View".  When the role lookup fails or finds nothing (no
    session, no profile, no role assigned, a dangling role id) the
    component holds the empty role name: no toggle button, no admin
    panel, and a click on a cell changes nothing. *)
Theorem edit_needs_an_assigned_role (st : App.t) (rpc : bool) :
  let st1 := App.loadData false rpc st in
  (canEdit (App.userRole st1) = true ->
   rpc = false /\
   exists uid p r,
     App.user st = Some uid /\
     In p (Store.profiles (App.store st)) /\ Profile.user_id p = uid /\
     In r (Store.roles (App.store st)) /\ Profile.role_id p = Some (Role.id r) /\
     Role.name r = App.userRole st1 /\
     (Role.name r = "Admin" \/ Role.name r = "Edit & View")) /\
  (rpc = true \/ Store.get_user_role (App.store st) (App.user st) = None ->
   App.userRole st1 = "" /\
   View.hasToggle (App.view st1 "all" "") = false /\
   isAdmin (App.userRole st1) = false /\
   forall env role action, App.click env role action st1 = st1).
Proof.
  intros st1.
  assert (Hrole : App.userRole st1 =
            userRole_of (if rpc then None
                         else Store.get_user_role (App.store st) (App.user st)))
    by reflexivity.
  split.
  - intros Hedit. rewrite Hrole in Hedit.
    destruct rpc; [discriminate Hedit|]. split; [reflexivity|].
    destruct (Store.get_user_role (App.store st) (App.user st)) as [n|] eqn:Hget;
      [|discriminate Hedit].
    assert (Hn : userRole_of (Some n) = n).
    { unfold userRole_of, or_string.
      destruct (String.eqb_spec n "") as [-> | _]; reflexivity. }
    rewrite Hn in Hedit.
    destruct (get_user_role_some _ _ _ Hget)
      as (uid & p & r & Hu & Hp & Hpu & Hr & Hrid & Hname).
    exists uid, p, r. repeat split; try assumption.
    + rewrite Hrole, Hn. exact Hname.
    + apply canEdit_true in Hedit. rewrite Hname. tauto.
  - intros Hnone.
    assert (Hempty : App.userRole st1 = "").
    { rewrite Hrole. destruct Hnone as [-> | Hget]; [reflexivity|].
      rewrite Hget. destruct rpc; reflexivity. }
    split; [exact Hempty|].
    assert (Hview : canEdit (App.userRole st1) = false)
      by (rewrite Hempty; reflexivity).
    split; [exact Hview|]. split; [rewrite Hempty; reflexivity|].
    intros env role action. apply view_only_click_changes_nothing. exact Hview.
Qed.

(** Bob has a profile but no role: after the load he can only view. *)
Lemma edit_needs_an_assigned_role_witness :
  App.userRole
    (App.loadData false false
       (App.mk Sample2.db (Some "user-2") [] [] [] [] true "" []))
  = "".
Proof.
  exact (proj1 (proj2 (edit_needs_an_assigned_role
                  (App.mk Sample2.db (Some "user-2") [] [] [] [] true "" [])
                  false)
               (or_intror eq_refl))).
Defined.

(** ** User management *)

Lemma incomplete_true (f : Users.NewUser) :
  Users.incomplete f = true <->
  Users.email f = "" \/ Users.password f = "" \/ Users.roleId f = "".
Proof.
  unfold Users.incomplete. rewrite !orb_true_iff, !String.eqb_eq. tauto.
Qed.

(** X10: [createUser] validates before anything else.  With an empty
    email, password or role the only effect is the validation notice:
    no sign-up, no write, the tables, the list and the form stay as they
    are, whatever the outside would have answered.  The full name is not
    required. *)
Theorem createUser_validates_first (env : UsersEnv) (st : Users.t) :
  (Users.email (Users.newUser st) = "" \/
   Users.password (Users.newUser st) = "" \/
   Users.roleId (Users.newUser st) = "" ->
   Users.createUser env st = Users.toast st Users.validationError /\
   App.store (Users.app (Users.createUser env st)) = App.store (Users.app st) /\
   Users.profiles (Users.createUser env st) = Users.profiles st /\
   Users.newUser (Users.createUser env st) = Users.newUser st /\
   App.toasts (Users.app (Users.createUser env st))
     = App.toasts (Users.app st) ++ [Users.validationError]) /\
  (Users.email (Users.newUser st) <> "" ->
   Users.password (Users.newUser st) <> "" ->
   Users.roleId (Users.newUser st) <> "" ->
   Users.incomplete (Users.newUser st) = false /\
   ~ In Users.validationError
        (skipn (length (App.toasts (Users.app st)))
               (App.toasts (Users.app (Users.createUser env st))))).
Proof.
  split.
  - intros Hempty. apply incomplete_true in Hempty.
    assert (Hst : Users.createUser env st = Users.toast st Users.validationError)
      by (unfold Users.createUser; rewrite Hempty; reflexivity).
    rewrite Hst. repeat split.
  - intros He Hp Hr.
    assert (Hfull : Users.incomplete (Users.newUser st) = false).
    { destruct (Users.incomplete (Users.newUser st)) eqn:Hinc; [|reflexivity].
      apply incomplete_true in Hinc. tauto. }
    split; [exact Hfull|].
    unfold Users.createUser. rewrite Hfull.
    destruct (signUp env) as [| |uid after].
    + simpl. rewrite skipn_app, skipn_all, Nat.sub_diag. simpl.
      intros [H | []]. discriminate H.
    + rewrite skipn_all. simpl. tauto.
    + destruct (Profiles.insert after (profile_write_fault env)
                  (new_profile_id env) uid _ _ _) as [db|e].
      * unfold Users.onDataChange, Users.loadProfiles, App.loadData.
        destruct (profiles_select_fault env), (reload_select_fault env); simpl;
          rewrite <- ?app_assoc, skipn_app, skipn_all, Nat.sub_diag; simpl;
          intuition discriminate.
      * simpl. rewrite skipn_app, skipn_all, Nat.sub_diag. simpl.
        intros [H | []]. discriminate H.
Qed.

(** The empty form of the sample panel. *)
Lemma createUser_validates_first_witness :
  Users.createUser Sample2.fine Sample2.users
  = Users.toast Sample2.users Users.validationError.
Proof.
  exact (proj1 (proj1 (createUser_validates_first Sample2.fine Sample2.users)
                      (or_introl eq_refl))).
Defined.

Lemma profiles_insert_accepted (db db' : Store.t) (fault : bool)
  (new_id user_id email full_name role_id : string) :
  Profiles.insert db fault new_id user_id email full_name role_id
    = Store.Data db' ->
  fault = false /\
  Profiles.has_role role_id db = true /\
  Store.profiles db' =
    Store.profiles db ++
    [Profile.mk new_id user_id (Some full_name) (Some email) (Some role_id)] /\
  Store.roles db' = Store.roles db /\
  Store.permissions db' = Store.permissions db.
Proof.
  unfold Profiles.insert. destruct fault; [discriminate|].
  destruct (existsb _ (Store.profiles db)); [discriminate|].
  destruct (Profiles.has_role role_id db); [|discriminate].
  simpl. intros H. injection H as <-. repeat split.
Qed.

Lemma loadProfiles_form (fault : bool) (st : Users.t) :
  Users.newUser (Users.loadProfiles fault st) = Users.newUser st /\
  App.store (Users.app (Users.loadProfiles fault st)) = App.store (Users.app st).
Proof. unfold Users.loadProfiles. destruct fault; split; reflexivity. Qed.

(** X11: [createUser] clears the form only when it has created the
    profile.  If the form changed, the sign-up answered with a user, the
    profile insert was accepted, the profile row with that user's id and
    the entered email, name and role is in the table, the role exists,
    and the form is the empty one.  A sign-up error leaves the failure
    notice and the form as typed; a sign-up that answers with neither an
    error nor a user changes nothing at all. *)
Theorem createUser_clears_form_only_on_success
  (env : UsersEnv) (st : Users.t) :
  let st' := Users.createUser env st in
  (Users.newUser st' <> Users.newUser st ->
   exists uid after db,
     signUp env = SignUpUser uid after /\
     Profiles.insert after (profile_write_fault env) (new_profile_id env) uid
       (Users.email (Users.newUser st)) (Users.fullName (Users.newUser st))
       (Users.roleId (Users.newUser st)) = Store.Data db /\
     App.store (Users.app st') = db /\
     In (Profile.mk (new_profile_id env) uid
           (Some (Users.fullName (Users.newUser st)))
           (Some (Users.email (Users.newUser st)))
           (Some (Users.roleId (Users.newUser st))))
        (Store.profiles db) /\
     Profiles.has_role (Users.roleId (Users.newUser st)) after = true /\
     Users.newUser st' = Users.emptyForm /\
     (profiles_select_fault env = false ->
      Users.profiles st' = Store.profiles db)) /\
  (Users.incomplete (Users.newUser st) = false ->
   signUp env = SignUpError ->
   st' = Users.toast st Users.createFailed) /\
  (Users.incomplete (Users.newUser st) = false ->
   signUp env = SignUpNoUser ->
   st' = st) /\
  (forall uid after e,
     Users.incomplete (Users.newUser st) = false ->
     signUp env = SignUpUser uid after ->
     Profiles.insert after (profile_write_fault env) (new_profile_id env) uid
       (Users.email (Users.newUser st)) (Users.fullName (Users.newUser st))
       (Users.roleId (Users.newUser st)) = Store.Error e ->
     Users.newUser st' = Users.newUser st /\
     App.store (Users.app st') = after /\
     App.toasts (Users.app st')
       = App.toasts (Users.app st) ++ [Users.createFailed]).
Proof.
  intros st'. unfold st', Users.createUser.
  destruct (Users.incomplete (Users.newUser st)) eqn:Hinc.
  - split; [intros H; exfalso; apply H; reflexivity|].
    repeat split; discriminate.
  - destruct (signUp env) as [| |uid after] eqn:Hsign.
    + split; [intros H; exfalso; apply H; reflexivity|].
      repeat split; try reflexivity; discriminate.
    + split; [intros H; exfalso; apply H; reflexivity|].
      repeat split; try reflexivity; discriminate.
    + cbn [Users.newUser Users.set_app Users.app].
      destruct (Profiles.insert after (profile_write_fault env)
                  (new_profile_id env) uid
                  (Users.email (Users.newUser st))
                  (Users.fullName (Users.newUser st))
                  (Users.roleId (Users.newUser st))) as [db|e] eqn:Hins.
      * destruct (profiles_insert_accepted _ _ _ _ _ _ _ _ Hins)
          as (_ & Hrole & Hprofiles & _ & _).
        split;
          [|split; [discriminate | split; [discriminate|]];
            intros uid' after' e' _ Heq Herr; injection Heq as <- <-;
            rewrite Hins in Herr; discriminate Herr].
        intros _. exists uid, after, db.
        split; [reflexivity|]. split; [exact Hins|].
        split.
        { unfold Users.onDataChange. cbn [Users.app Users.set_app].
          rewrite loadData_store.
          rewrite (proj2 (loadProfiles_form _ _)). reflexivity. }
        split; [rewrite Hprofiles; apply in_or_app; right; left; reflexivity|].
        split; [exact Hrole|].
        split.
        { unfold Users.onDataChange. cbn [Users.newUser Users.set_app].
          rewrite (proj1 (loadProfiles_form _ _)). reflexivity. }
        intros Hpf. unfold Users.onDataChange, Users.loadProfiles.
        rewrite Hpf. reflexivity.
      * split; [intros H; exfalso; apply H; reflexivity|].
        split; [discriminate|]. split; [discriminate|].
        intros uid' after' e' _ Heq Herr. injection Heq as <- <-.
        repeat split.
Qed.

(** A complete form and a sign-up that fails. *)
Lemma createUser_clears_form_only_on_success_witness :
  Users.createUser
    (mkUsersEnv SignUpError false "profile-9" false false false)
    (Users.mk Sample2.app [Sample2.alice; Sample2.bob] false
       (Users.mkNewUser "carol@example.com" "secret" "" "role-view"))
  = Users.toast
      (Users.mk Sample2.app [Sample2.alice; Sample2.bob] false
         (Users.mkNewUser "carol@example.com" "secret" "" "role-view"))
      Users.createFailed.
Proof.
  exact (proj1 (proj2 (createUser_clears_form_only_on_success
    (mkUsersEnv SignUpError false "profile-9" false false false)
    (Users.mk Sample2.app [Sample2.alice; Sample2.bob] false
       (Users.mkNewUser "carol@example.com" "secret" "" "role-view"))))
    eq_refl eq_refl).
Defined.

Lemma patch_role_user (id roleId : string) (p : Profile.t) :
  Profile.user_id (Profiles.patch_role id roleId p) = Profile.user_id p /\
  Profile.id (Profiles.patch_role id roleId p) = Profile.id p.
Proof.
  unfold Profiles.patch_role. destruct (String.eqb _ _); split; reflexivity.
Qed.

Lemma find_user_patch (id roleId u : string) (pfs : list Profile.t) :
  find (fun q => String.eqb (Profile.user_id q) u)
       (map (Profiles.patch_role id roleId) pfs)
  = option_map (Profiles.patch_role id roleId)
      (find (fun q => String.eqb (Profile.user_id q) u) pfs).
Proof.
  induction pfs as [|q pfs IH]; simpl; [reflexivity|].
  rewrite (proj1 (patch_role_user id roleId q)).
  destruct (String.eqb (Profile.user_id q) u); [reflexivity | exact IH].
Qed.

Lemma patch_role_absent (id roleId : string) (pfs : list Profile.t) :
  existsb (fun p => String.eqb (Profile.id p) id) pfs = false ->
  map (Profiles.patch_role id roleId) pfs = pfs.
Proof.
  induction pfs as [|p pfs IH]; simpl; [reflexivity|].
  intros H. apply orb_false_iff in H. destruct H as [Hp Hpfs].
  unfold Profiles.patch_role at 1. rewrite Hp, (IH Hpfs). reflexivity.
Qed.

Lemma updateUserRole_accepted (env : UsersEnv) (profileId newRoleId : string)
  (st : Users.t) (db : Store.t) :
  Profiles.update_role (App.store (Users.app st)) (profile_write_fault env)
                       profileId newRoleId = Store.Data db ->
  let st' := Users.updateUserRole env profileId newRoleId st in
  App.store (Users.app st') = db /\
  Users.profiles st' =
    (if profiles_select_fault env then Users.profiles st
     else Store.profiles db) /\
  (reload_select_fault env = false ->
   App.roles (Users.app st') = Store.roles db /\
   App.userRole (Users.app st') =
     userRole_of (if reload_rpc_fault env then None
                  else Store.get_user_role db (App.user (Users.app st)))) /\
  In Users.roleUpdated (App.toasts (Users.app st')).
Proof.
  intros Hw st'. unfold st', Users.updateUserRole. rewrite Hw.
  unfold Users.onDataChange, Users.loadProfiles, App.loadData.
  destruct (profiles_select_fault env), (reload_select_fault env); simpl;
    repeat split; try discriminate;
    repeat (apply in_or_app; first [right; left; reflexivity | left]).
Qed.

(** X12: assigning a role reaches the gate.  After an accepted
    [updateUserRole] on the profile of a user, the role lookup for that
    user answers the name of the assigned role; once the reloads have gone
    through, the users table shows the profile with that role, and if the
    user is the one signed in, the component holds that role name, so
    assigning the role named "Admin" opens the admin panel. *)
Theorem updateUserRole_reaches_the_gate
  (env : UsersEnv) (st : Users.t) (u newRoleId : string)
  (p : Profile.t) (role : Role.t) :
  find (fun q => String.eqb (Profile.user_id q) u)
       (Store.profiles (App.store (Users.app st))) = Some p ->
  find (fun r => String.eqb (Role.id r) newRoleId)
       (Store.roles (App.store (Users.app st))) = Some role ->
  profile_write_fault env = false ->
  let st' := Users.updateUserRole env (Profile.id p) newRoleId st in
  Store.get_user_role (App.store (Users.app st')) (Some u)
    = Some (Role.name role) /\
  (profiles_select_fault env = false ->
   find (fun q => String.eqb (Profile.user_id q) u) (Users.profiles st')
     = Some (Profile.mk (Profile.id p) (Profile.user_id p)
                        (Profile.full_name p) (Profile.email p)
                        (Some newRoleId))) /\
  (reload_select_fault env = false ->
   newRoleId <> "" -> Role.name role <> "" ->
   Users.roleLabel (App.roles (Users.app st'))
     (Profile.mk (Profile.id p) (Profile.user_id p) (Profile.full_name p)
                 (Profile.email p) (Some newRoleId))
   = Role.name role) /\
  (reload_select_fault env = false -> reload_rpc_fault env = false ->
   App.user (Users.app st) = Some u ->
   App.userRole (Users.app st') = userRole_of (Some (Role.name role)) /\
   (isAdmin (App.userRole (Users.app st')) = true <-> Role.name role = "Admin") /\
   (canEdit (App.userRole (Users.app st')) = true <->
    Role.name role = "Edit & View" \/ Role.name role = "Admin")).
Proof.
  intros Hp Hrole Hwf st'.
  set (db := App.store (Users.app st)) in *.
  set (db' := Profiles.set_profiles db
                (map (Profiles.patch_role (Profile.id p) newRoleId)
                     (Store.profiles db))).
  assert (Hhas : Profiles.has_role newRoleId db = true).
  { unfold Profiles.has_role. apply existsb_exists. exists role.
    apply find_some in Hrole. exact Hrole. }
  assert (Hw : Profiles.update_role db (profile_write_fault env)
                 (Profile.id p) newRoleId = Store.Data db').
  { unfold Profiles.update_role. rewrite Hwf, Hhas, andb_false_r. reflexivity. }
  destruct (updateUserRole_accepted env (Profile.id p) newRoleId st db' Hw)
    as (Hstore & Hprofiles & Hreload & _).
  fold st' in Hstore, Hprofiles, Hreload.
  assert (Hfind : find (fun q => String.eqb (Profile.user_id q) u)
                       (Store.profiles db')
                  = Some (Profile.mk (Profile.id p) (Profile.user_id p)
                            (Profile.full_name p) (Profile.email p)
                            (Some newRoleId))).
  { unfold db'. simpl. rewrite find_user_patch, Hp. simpl.
    unfold Profiles.patch_role. rewrite String.eqb_refl. reflexivity. }
  assert (Hget : Store.get_user_role db' (Some u) = Some (Role.name role)).
  { unfold Store.get_user_role. rewrite Hfind. simpl.
    change (Store.roles db') with (Store.roles db). rewrite Hrole. reflexivity. }
  assert (Hname : forall d, Role.name role <> "" ->
                            or_string (Some (Role.name role)) d = Role.name role).
  { intros d Hne. unfold or_string.
    destruct (String.eqb_spec (Role.name role) ""); [contradiction | reflexivity]. }
  split; [rewrite Hstore; exact Hget|]. split; [|split].
  - intros Hpf. rewrite Hprofiles, Hpf. exact Hfind.
  - intros Hsf Hid Hne. destruct (Hreload Hsf) as [Hroles _].
    rewrite Hroles. change (Store.roles db') with (Store.roles db).
    unfold Users.roleLabel, Users.getRoleName. simpl.
    destruct (String.eqb_spec newRoleId ""); [contradiction|].
    rewrite Hrole. simpl. apply Hname, Hne.
  - intros Hsf Hrf Hu. destruct (Hreload Hsf) as [_ Hur].
    rewrite Hrf, Hu, Hget in Hur.
    split; [exact Hur|]. rewrite Hur. unfold userRole_of, or_string.
    destruct (String.eqb_spec (Role.name role) "") as [Hempty | _].
    + rewrite Hempty. split; split; try discriminate.
      intros [H | H]; discriminate H.
    + split; [apply isAdmin_true | apply canEdit_true].
Qed.

(** Alice, the signed-in user, is made Admin. *)
Lemma updateUserRole_reaches_the_gate_witness :
  isAdmin (App.userRole (Users.app
    (Users.updateUserRole Sample2.fine "profile-1" "role-admin" Sample2.users)))
  = true.
Proof.
  destruct (updateUserRole_reaches_the_gate Sample2.fine Sample2.users
              "user-1" "role-admin" Sample2.alice Sample2.admin
              eq_refl eq_refl eq_refl) as (_ & _ & _ & Hgate).
  destruct (Hgate eq_refl eq_refl eq_refl) as (_ & Hadmin & _).
  apply Hadmin. reflexivity.
Defined.

(** X13: the edges of [updateUserRole].  A profile id that no row has is
    not an error for the store: the table is unchanged and the user still
    gets the success notice.  A role id that no role has is rejected when
    the profile exists, and a failed request likewise: then the only
    effect is the failure notice. *)
Theorem updateUserRole_missing_rows
  (env : UsersEnv) (st : Users.t) (profileId newRoleId : string) :
  let db := App.store (Users.app st) in
  let st' := Users.updateUserRole env profileId newRoleId st in
  (existsb (fun p => String.eqb (Profile.id p) profileId) (Store.profiles db)
     = false ->
   profile_write_fault env = false ->
   App.store (Users.app st') = db /\
   In Users.roleUpdated (App.toasts (Users.app st'))) /\
  (existsb (fun p => String.eqb (Profile.id p) profileId) (Store.profiles db)
     = true ->
   Profiles.has_role newRoleId db = false ->
   st' = Users.toast st Users.roleUpdateFailed) /\
  (profile_write_fault env = true ->
   st' = Users.toast st Users.roleUpdateFailed).
Proof.
  intros db st'. split; [|split].
  - intros Hnone Hwf.
    assert (Hw : Profiles.update_role db (profile_write_fault env)
                   profileId newRoleId = Store.Data db).
    { unfold Profiles.update_role. rewrite Hwf, Hnone. simpl.
      rewrite (patch_role_absent _ _ _ Hnone). destruct db; reflexivity. }
    destruct (updateUserRole_accepted env profileId newRoleId st db Hw)
      as (Hstore & _ & _ & Htoast).
    split; assumption.
  - intros Hsome Hrole. unfold st', Users.updateUserRole, Profiles.update_role.
    fold db. rewrite Hsome, Hrole. destruct (profile_write_fault env); reflexivity.
  - intros Hwf. unfold st', Users.updateUserRole, Profiles.update_role.
    rewrite Hwf. reflexivity.
Qed.

(** A profile id nobody has: success notice, table untouched. *)
Lemma updateUserRole_missing_rows_witness :
  App.store (Users.app
    (Users.updateUserRole Sample2.fine "profile-404" "role-admin" Sample2.users))
  = Sample2.db /\
  In Users.roleUpdated (App.toasts (Users.app
    (Users.updateUserRole Sample2.fine "profile-404" "role-admin" Sample2.users))).
Proof.
  exact (proj1 (updateUserRole_missing_rows
                  Sample2.fine Sample2.users "profile-404" "role-admin")
               eq_refl eq_refl).
Defined.

(** ** The mock sign-in *)

Lemma login_in_found (users : list MockUser.t) (email password : string)
  (user : option User.t) :
  match find (fun u => String.eqb (MockUser.email u) email &&
                       String.eqb (MockUser.password u) password) users with
  | Some u =>
      In u users /\ MockUser.email u = email /\ MockUser.password u = password /\
      Auth.login_in users email password user
        = (true, Some (User.mk (MockUser.id u) (MockUser.name u)
                               (MockUser.email u) (MockUser.role u)))
  | None =>
      (forall u, In u users ->
         ~ (MockUser.email u = email /\ MockUser.password u = password)) /\
      Auth.login_in users email password user = (false, user)
  end.
Proof.
  unfold Auth.login_in.
  destruct (find _ users) as [u|] eqn:Hfind.
  - apply find_some in Hfind. destruct Hfind as [Hin Hm].
    apply andb_true_iff in Hm. rewrite !String.eqb_eq in Hm. tauto.
  - split; [|reflexivity]. intros u Hin [He Hp].
    pose proof (find_none _ _ Hfind u Hin) as Hm. simpl in Hm.
    rewrite He, Hp, !String.eqb_refl in Hm. discriminate Hm.
Qed.

(** X14: the mock [login] succeeds exactly on an email and password
    that are, character for character, those of one mock user; it then
    holds that user's id, name, email and role and is authenticated.  A
    failed login leaves whoever was signed in signed in; [logout] always
    ends the session. *)
Theorem login_exact_credentials (email password : string)
  (user : option User.t) :
  let result := Auth.login email password user in
  (fst result = true <->
   exists u, In u Auth.mockUsers /\
             MockUser.email u = email /\ MockUser.password u = password) /\
  (fst result = false -> snd result = user) /\
  (fst result = true ->
   exists u, In u Auth.mockUsers /\
             MockUser.email u = email /\ MockUser.password u = password /\
             snd result = Some (User.mk (MockUser.id u) (MockUser.name u)
                                        email (MockUser.role u)) /\
             Auth.isAuthenticated (snd result) = true) /\
  Auth.isAuthenticated (Auth.logout (snd result)) = false.
Proof.
  intros result. unfold result, Auth.login.
  pose proof (login_in_found Auth.mockUsers email password user) as Hspec.
  destruct (find _ Auth.mockUsers) as [u|].
  - destruct Hspec as (Hin & He & Hp & ->). simpl.
    split; [split; [intros _; exists u; tauto | reflexivity]|].
    split; [discriminate|]. split; [|reflexivity].
    intros _. exists u. rewrite He.
    repeat split; first [assumption | reflexivity].
  - destruct Hspec as (Hnone & ->). simpl.
    split; [split; [discriminate | intros (u & Hin & He & Hp);
                                   exfalso; apply (Hnone u Hin); tauto]|].
    split; [reflexivity|]. split; [discriminate | reflexivity].
Qed.

(** The right email with the wrong password while someone is signed in. *)
Lemma login_exact_credentials_witness :
  snd (Auth.login "admin@company.com" "Admin123"
         (Some (User.mk "2" "Manager User" "manager@company.com" "Manager")))
  = Some (User.mk "2" "Manager User" "manager@company.com" "Manager").
Proof.
  exact (proj1 (proj2 (login_exact_credentials "admin@company.com" "Admin123"
           (Some (User.mk "2" "Manager User" "manager@company.com" "Manager"))))
         eq_refl).
Defined.

(** ** The matrix over local data *)

Lemma filter_by_key_at_most_one {A : Type} (key : A -> string) (k : string)
  (l : list A) :
  NoDup (map key l) ->
  (length (filter (fun x => String.eqb (key x) k) l) <= 1)%nat.
Proof.
  induction l as [|x l IH]; simpl; [lia|].
  intros Hnd. inversion Hnd as [|y ys Hnotin Hrest]; subst.
  specialize (IH Hrest).
  destruct (String.eqb_spec (key x) k) as [Hk|]; [|exact IH].
  assert (Hnil : filter (fun x0 => String.eqb (key x0) k) l = []).
  { destruct (filter (fun x0 => String.eqb (key x0) k) l) as [|z zs] eqn:Hf;
      [reflexivity|].
    exfalso. assert (Hz : In z (filter (fun x0 => String.eqb (key x0) k) l))
      by (rewrite Hf; left; reflexivity).
    apply filter_In in Hz. destruct Hz as [Hz Hzk]. apply String.eqb_eq in Hzk.
    apply Hnotin. rewrite Hk, <- Hzk. apply in_map, Hz. }
  rewrite Hnil. simpl. lia.
Qed.

(** X15: the local matrix has one row per filtered action and, in each
    row, one cell per filtered role.  "all" keeps everything; any other
    selection keeps exactly the roles with that id (at most one column
    when role ids are distinct) and exactly the actions of that category.
    The category options are distinct exactly when no action has the
    category "all". *)
Theorem local_table_follows_filters (st : Local.t) :
  length (Local.table st) = length (Local.filteredActions st) /\
  (forall row, In row (Local.table st) ->
     length (snd row) = length (Local.filteredRoles st)) /\
  (Local.selectedRole st = "all" -> Local.filteredRoles st = Local.roles st) /\
  (Local.selectedCategory st = "all" ->
   Local.filteredActions st = Local.actions st) /\
  (Local.selectedRole st <> "all" ->
   (forall r, In r (Local.filteredRoles st) <->
              In r (Local.roles st) /\ Local.role_id r = Local.selectedRole st) /\
   (NoDup (map Local.role_id (Local.roles st)) ->
    (length (Local.filteredRoles st) <= 1)%nat)) /\
  (Local.selectedCategory st <> "all" ->
   forall a, In a (Local.filteredActions st) <->
             In a (Local.actions st) /\
             Local.category a = Local.selectedCategory st) /\
  (NoDup (Local.categories st) <->
   forall a, In a (Local.actions st) -> Local.category a <> "all").
Proof.
  split; [unfold Local.table; apply length_map|].
  split.
  { intros row Hrow. unfold Local.table in Hrow. apply in_map_iff in Hrow.
    destruct Hrow as (a & <- & _). simpl. apply length_map. }
  split; [intros H; unfold Local.filteredRoles; rewrite H; reflexivity|].
  split; [intros H; unfold Local.filteredActions; rewrite H; reflexivity|].
  split.
  { intros Hsel. unfold Local.filteredRoles.
    destruct (String.eqb_spec (Local.selectedRole st) "all"); [contradiction|].
    split.
    - intros r. rewrite filter_In, String.eqb_eq. reflexivity.
    - apply filter_by_key_at_most_one. }
  split.
  { intros Hsel a. unfold Local.filteredActions.
    destruct (String.eqb_spec (Local.selectedCategory st) "all"); [contradiction|].
    rewrite filter_In, String.eqb_eq. reflexivity. }
  assert (Hin : forall c, In c (array_from_set (map Local.category (Local.actions st)))
                  <-> exists a, In a (Local.actions st) /\ Local.category a = c).
  { intros c. unfold array_from_set. rewrite set_values_In, in_map_iff. split.
    - intros [(a & Hcat & Ha) _]. exists a. tauto.
    - intros (a & Ha & Hcat). split; [exists a; tauto | simpl; tauto]. }
  unfold Local.categories. split.
  - intros Hnd a Ha Hcat. inversion Hnd as [|x l Hnotin _]; subst.
    apply Hnotin, Hin. exists a. tauto.
  - intros Hnone. constructor; [|apply set_values_NoDup].
    intros Hall. apply Hin in Hall. destruct Hall as (a & Ha & Hcat).
    exact (Hnone a Ha Hcat).
Qed.

(** The sample local matrix with role 2 and category HR selected: two
    rows of one cell. *)
Lemma local_table_follows_filters_witness :
  (length (Local.filteredRoles Sample2.local) <= 1)%nat /\
  (forall a, In a (Local.filteredActions Sample2.local) ->
             Local.category a = "HR").
Proof.
  destruct (local_table_follows_filters Sample2.local)
    as (_ & _ & _ & _ & Hroles & Hactions & _).
  split.
  - apply (proj2 (Hroles ltac:(discriminate))).
    simpl. repeat constructor; simpl; intuition discriminate.
  - intros a Ha. apply (Hactions ltac:(discriminate)) in Ha. tauto.
Defined.

(** ** The gate in the component and in the database *)

(** X16: the component's gate and the database's policies agree on
    every answer of the role lookup, NULL and the empty name included:
    [is_admin()] lets a row through exactly when the component has
    [isAdmin], [can_edit()] exactly when it has [canEdit]. *)
Theorem gate_agrees_with_policies (data : option string) :
  policy_using (sql_is_admin data) = isAdmin (userRole_of data) /\
  policy_using (sql_can_edit data) = canEdit (userRole_of data).
Proof.
  destruct data as [n|]; simpl; [|split; reflexivity].
  unfold userRole_of, or_string.
  destruct (String.eqb_spec n "") as [-> | _]; [split; reflexivity|].
  unfold isAdmin, canEdit.
  destruct (String.eqb n "Admin"), (String.eqb n "Edit & View");
    split; reflexivity.
Qed.

(** ** Lines of the export *)

Lemma count_char_app (c : ascii) (a b : string) :
  count_char c (a ++ b) = (count_char c a + count_char c b)%nat.
Proof. induction a as [|d a IH]; simpl; [reflexivity|]. rewrite IH. lia. Qed.

Lemma count_char_concat (c : ascii) (sep : string) (l : list string) :
  (forall s, In s l -> count_char c s = 0%nat) ->
  count_char c (String.concat sep l)
  = ((length l - 1) * count_char c sep)%nat.
Proof.
  induction l as [|x l IH]; intros Hzero; [reflexivity|].
  destruct l as [|y l].
  - simpl. apply Hzero. left. reflexivity.
  - change (String.concat sep (x :: y :: l))
      with (x ++ sep ++ String.concat sep (y :: l))%string.
    rewrite !count_char_app, IH by (intros s Hs; apply Hzero; right; exact Hs).
    rewrite (Hzero x) by (left; reflexivity). simpl. lia.
Qed.

Lemma digits_no_lf (d : Decimal.uint) :
  count_char lf (NilEmpty.string_of_uint d) = 0%nat.
Proof. induction d; simpl; try assumption; reflexivity. Qed.

Lemma number_no_lf (n : Z) : count_char lf (field_string (FNum n)) = 0%nat.
Proof.
  unfold field_string, NilZero.string_of_int, NilZero.string_of_uint.
  destruct (Z.to_int n) as [d | d]; destruct d; simpl;
    try reflexivity; apply digits_no_lf.
Qed.

Lemma quoted_no_lf (f : Field) :
  count_char lf (field_string f) = 0%nat -> count_char lf (quoted f) = 0%nat.
Proof.
  intros H. unfold quoted. rewrite !count_char_app, H. reflexivity.
Qed.

Lemma csvLine_no_lf (row : list Field) :
  (forall f, In f row -> count_char lf (field_string f) = 0%nat) ->
  count_char lf (View.csvLine row) = 0%nat.
Proof.
  intros Hrow. unfold View.csvLine. rewrite count_char_concat.
  - unfold View.comma. simpl. lia.
  - intros s Hs. apply in_map_iff in Hs. destruct Hs as (f & <- & Hf).
    apply quoted_no_lf, Hrow, Hf.
Qed.

(** X17: when no role name, action name, category or conditions text
    contains a line feed, the exported text has exactly one line feed per
    (role, action) pair, that is a header line and [|roles| * |actions|]
    data lines, whatever the filters are. *)
Theorem export_line_count (v : View.t) :
  (forall role, In role (View.roles v) ->
     count_char lf (Role.name role) = 0%nat) ->
  (forall action, In action (View.actions v) ->
     count_char lf (Action.name action) = 0%nat /\
     count_char lf (Action.category action) = 0%nat) ->
  (forall p c, In p (View.permissions v) -> Permission.conditions p = Some c ->
     count_char lf c = 0%nat) ->
  count_char lf (View.csvContent v)
  = (length (View.roles v) * length (View.actions v))%nat.
Proof.
  intros Hroles Hactions Hconds.
  assert (Hrows : forall row, In row (View.csvData v) ->
                    count_char lf (View.csvLine row) = 0%nat).
  { intros row [<- | Hrow]; [reflexivity|].
    unfold View.dataRows in Hrow. apply in_flat_map in Hrow.
    destruct Hrow as (role & Hrole & Hrow). apply in_map_iff in Hrow.
    destruct Hrow as (action & <- & Haction).
    apply csvLine_no_lf. intros f Hf. unfold View.exportRow in Hf.
    destruct (Hactions action Haction) as [Hname Hcat].
    simpl in Hf.
    destruct Hf as [<- | [<- | [<- | [<- | [<- | [<- | []]]]]]]; simpl.
    - apply Hroles, Hrole.
    - exact Hname.
    - destruct (getPermission _ _ _) as [p|]; [|reflexivity].
      simpl. destruct (Permission.status p); reflexivity.
    - destruct (getPermission _ _ _) as [p|]; [|reflexivity].
      unfold or_number. destruct (Permission.limit_value p) as [n|];
        [|reflexivity].
      destruct (Z.eqb n 0); [reflexivity | apply number_no_lf].
    - destruct (getPermission (View.permissions v) (Role.id role)
                  (Action.id action)) as [p|] eqn:Hget; [|reflexivity].
      destruct (getPermission_some _ _ _ _ Hget) as (Hin & _ & _).
      unfold or_string. destruct (Permission.conditions p) as [c|] eqn:Hc;
        [|reflexivity].
      destruct (String.eqb c ""); [reflexivity|].
      exact (Hconds p c Hin Hc).
    - exact Hcat. }
  unfold View.csvContent. rewrite count_char_concat.
  - rewrite length_map. unfold View.csvData. cbn [length].
    replace (S (length (View.dataRows v)) - 1)%nat
      with (length (View.dataRows v)) by lia.
    assert (Hlen : length (View.dataRows v)
                   = (length (View.roles v) * length (View.actions v))%nat).
    { unfold View.dataRows. apply flat_map_constant_length.
      intros role _. apply length_map. }
    rewrite Hlen. unfold View.newline. simpl. lia.
  - intros s Hs. apply in_map_iff in Hs. destruct Hs as (row & <- & Hrow).
    apply Hrows, Hrow.
Qed.

(** The sample catalog filtered down to one action still exports
    2 * 4 = 8 data lines. *)
Lemma export_line_count_witness :
  count_char lf (View.csvContent (Sample.view "System" "deploy")) = 8%nat.
Proof.
  refine (export_line_count (Sample.view "System" "deploy") _ _ _).
  - intros role Hrole. simpl in Hrole.
    destruct Hrole as [<- | [<- | []]]; reflexivity.
  - intros action Haction. simpl in Haction.
    destruct Haction as [<- | [<- | [<- | [<- | []]]]]; split; reflexivity.
  - intros p c Hp Hc. simpl in Hp.
    destruct Hp as [<- | [<- | []]]; simpl in Hc;
      [discriminate Hc | injection Hc as <-; reflexivity].
Defined.
